(** * Patterns and the Convert codec of deal.II's [patterns.h]

    A shallow embedding of [include/deal.II/base/patterns.h]: the pattern
    family, the static rank classification [RankInfo], the separator tables
    and the type-directed [Convert<T>] codec ([to_pattern], [to_string],
    [to_value]).

    [std::string] is [string]; [int] is a [Z] kept inside the 32-bit range,
    [char] and [unsigned char] a [Z] kept inside eight bits; [unsigned int]
    element counts are [N]; a C++ type is a [shape], and the values of a
    type are computed from its shape by [value_of], a container being the
    list of its elements in iteration order.  Exceptions raised by
    [AssertThrow] are the [Throw] results of a small error monad.

    The header only declares [PatternBase::match] and
    [Utilities::split_string_list]; their bodies live in files that are not
    part of the sources at hand, so they are modelled from the
    specification and marked as such.  Of floating point only the text
    that [std::to_string] gives a [double] is modelled; the [Double]
    pattern and the reading of a [double] are left out, and so are
    [Tensor] and [Point], whose classes are declared elsewhere, the
    integer types of other widths, whose default pattern depends on an
    implementation-defined conversion of their limits to [int], and the
    unordered containers, whose iteration order is unspecified. *)

From Stdlib Require Import ZArith List Bool Ascii String Lia Sorting.Sorted.
Import ListNotations.
Open Scope string_scope.
Open Scope Z_scope.

(* ================================================================== *)
(** ** Characters and strings *)

Module Str.

(** [std::isspace] in the "C" locale. *)
Definition is_space (c : ascii) : bool :=
  match nat_of_ascii c with
  | 32%nat | 9%nat | 10%nat | 11%nat | 12%nat | 13%nat => true
  | _ => false
  end.

Definition is_digit (c : ascii) : bool :=
  (48 <=? nat_of_ascii c)%nat && (nat_of_ascii c <=? 57)%nat.

Definition digit_value (c : ascii) : Z := Z.of_nat (nat_of_ascii c) - 48.

Definition digit_char (d : Z) : ascii := ascii_of_nat (Z.to_nat (48 + d)).

Fixpoint all (P : ascii -> bool) (s : string) : bool :=
  match s with
  | EmptyString => true
  | String c s' => P c && all P s'
  end.

(** [c] does not occur in [s]. *)
Definition free_of (c : ascii) (s : string) : bool :=
  all (fun d => negb (Ascii.eqb d c)) s.

Definition is_empty (s : string) : bool :=
  match s with EmptyString => true | _ => false end.

(** Strip leading white space. *)
Fixpoint ltrim (s : string) : string :=
  match s with
  | EmptyString => EmptyString
  | String c s' => if is_space c then ltrim s' else s
  end.

(** Strip trailing white space. *)
Fixpoint rtrim (s : string) : string :=
  match s with
  | EmptyString => EmptyString
  | String c s' =>
      match rtrim s' with
      | EmptyString => if is_space c then EmptyString else String c EmptyString
      | r => String c r
      end
  end.

Definition trim (s : string) : string := rtrim (ltrim s).

(** Non-empty and not starting (resp. ending) with white space. *)
Definition starts_clean (s : string) : bool :=
  match s with
  | EmptyString => false
  | String c _ => negb (is_space c)
  end.

Fixpoint ends_clean (s : string) : bool :=
  match s with
  | EmptyString => false
  | String c EmptyString => negb (is_space c)
  | String _ s' => ends_clean s'
  end.

Definition dquote : string := String (ascii_of_nat 34) EmptyString.

End Str.

(* ================================================================== *)
(** ** Decimal integers: [std::to_string(int)] and [operator>>(int&)] *)

Module Dec.
Import Str.

Definition INT_MIN : Z := -2147483648.
Definition INT_MAX : Z := 2147483647.
Definition UINT_MAX : N := 4294967295%N.

Definition in_int_range (v : Z) : bool := (INT_MIN <=? v) && (v <=? INT_MAX).

(** Decimal digits of a non-negative number, most significant first,
    pushed in front of [acc]. *)
Fixpoint digits_of (fuel : nat) (n : Z) (acc : string) : string :=
  let acc' := String (digit_char (n mod 10)) acc in
  match fuel with
  | O => acc'
  | S f => if n <? 10 then acc' else digits_of f (n / 10) acc'
  end.

(** The digits printed for a non-negative number; a number [n] has no
    more than [log2 n + 1] of them. *)
Definition decimal (n : Z) : string :=
  digits_of (Z.to_nat (Z.log2 n)) n EmptyString.

(** [std::to_string] on an integer: a minus sign for negative numbers and
    the decimal digits, no leading zeros. *)
Definition to_string (v : Z) : string :=
  if v <? 0 then String "-" (decimal (Z.abs v)) else decimal (Z.abs v).

(** The number read from a run of digits, with [acc] the value of the
    digits already consumed; [None] at the first non-digit. *)
Fixpoint parse_digits (acc : Z) (s : string) : option Z :=
  match s with
  | EmptyString => Some acc
  | String c s' =>
      if is_digit c then parse_digits (10 * acc + digit_value c) s' else None
  end.

Definition parse_unsigned (s : string) : option Z :=
  if is_empty s then None else parse_digits 0 s.

(** A whole text read as a base-10 integer: an optional sign, then one
    or more digits, and nothing else. *)
Definition parse_integer (s : string) : option Z :=
  match s with
  | EmptyString => None
  | String c s' =>
      if Ascii.eqb c "-" then option_map Z.opp (parse_unsigned s')
      else if Ascii.eqb c "+" then parse_unsigned s'
      else parse_unsigned s
  end.

(** The longest prefix of digits. *)
Fixpoint digit_prefix (s : string) : string :=
  match s with
  | EmptyString => EmptyString
  | String c s' => if is_digit c then String c (digit_prefix s') else EmptyString
  end.

(** [std::istringstream is(s); int i; is >> i;]: leading white space is
    skipped, an optional sign and the longest run of digits are consumed,
    and the stream fails when there is no digit or the number does not
    fit in an [int].  [None] is [is.fail()]. *)
Definition extract_int (s : string) : option Z :=
  let s1 := ltrim s in
  let '(neg, s2) :=
    match s1 with
    | EmptyString => (false, s1)
    | String c r =>
        if Ascii.eqb c "-" then (true, r)
        else if Ascii.eqb c "+" then (false, r)
        else (false, s1)
    end in
  match parse_unsigned (digit_prefix s2) with
  | None => None
  | Some n =>
      let v := if neg then - n else n in
      if in_int_range v then Some v else None
  end.

End Dec.

(* ================================================================== *)
(** ** [Utilities::split_string_list] *)

Module Utilities.
Import Str.

(** Modelled from the spec: splitting a text on a separator (part of the
    missing [split_string_list]).  [s] is cut at every occurrence of
    [sep], scanning from the left; [skip] counts the characters of a
    separator that is being stepped over.  The result always has one more
    piece than there are occurrences. *)
Fixpoint split_on (sep : string) (skip : nat) (s : string) : list string :=
  match s with
  | EmptyString => [EmptyString]
  | String c s' =>
      match skip with
      | S k => split_on sep k s'
      | O =>
          if prefix sep s
          then EmptyString :: split_on sep (String.length sep - 1) s'
          else match split_on sep 0 s' with
               | tok :: rest => String c tok :: rest
               | [] => [String c EmptyString]
               end
      end
  end.

(** Modelled from the spec: the body of [Utilities::split_string_list]
    (declared in [utilities.h]) is missing.  The text is split on the
    separator, every piece is trimmed of surrounding white space, and the
    empty text has zero elements.  Separators are assumed non-empty. *)
Definition split_string_list (s : string) (delimiter : string) : list string :=
  if is_empty s then [] else map trim (split_on delimiter 0 s).

End Utilities.

(* ================================================================== *)
(** ** The pattern family *)

Module Patterns.
Import Str Dec Utilities.

Inductive FileType : Set := input | output.

(** One constructor per class derived from [PatternBase], carrying the
    class's data members.  [Selection] and [MultipleSelection] hold the
    stored option sequence; [Bool] is [Selection] on ["true|false"]. *)
Inductive PatternBase : Set :=
| Integer (lower_bound upper_bound : Z)
| Selection (sequence : string)
| List (pattern : PatternBase) (min_elements max_elements : N)
       (separator : string)
| Map (key_pattern value_pattern : PatternBase)
      (min_elements max_elements : N)
      (separator key_value_separator : string)
| MultipleSelection (sequence : string)
| Bool
| Anything
| FileName (file_type : FileType)
| DirectoryName.

(** Modelled from the spec: the element count lies in
    [min_elements, max_elements] (part of the missing [List::match] and
    [Map::match]). *)
Definition count_in_range (n : nat) (min_elements max_elements : N) : bool :=
  (min_elements <=? N.of_nat n)%N && negb (max_elements <? N.of_nat n)%N.

(** Modelled from the spec: the text equals one of the options of a
    [|]-delimited sequence (part of the missing [Selection::match]). *)
Definition is_option (sequence : string) (test_string : string) : bool :=
  existsb (String.eqb test_string) (split_on "|" 0 sequence).

(** Modelled from the spec: the bodies of the [match] member functions
    are missing (the header only declares them).
    - [Integer]: the text parses as a base-10 integer with optional sign
      and no trailing garbage, and the value lies in the inclusive
      interval when the bounds are ordered; unordered bounds do not
      restrict.
    - [Selection], [Bool]: the text equals one option exactly.
    - [List]: splitting on the separator yields a count within
      [min_elements, max_elements] and every trimmed piece matches the
      base pattern.
    - [Map]: the entry count is within bounds and every entry, split on
      the key/value separator, yields exactly two parts, the first
      matching the key pattern and the second the value pattern.
    - [MultipleSelection]: a comma separated list of picks from the
      options, possibly empty, repeats allowed.
    - [Anything], [FileName], [DirectoryName]: every text. *)
Fixpoint match_ (p : PatternBase) (test_string : string) : bool :=
  match p with
  | Integer lower_bound upper_bound =>
      match parse_integer test_string with
      | None => false
      | Some i =>
          if lower_bound <=? upper_bound
          then (lower_bound <=? i) && (i <=? upper_bound)
          else true
      end
  | Selection sequence => is_option sequence test_string
  | List pattern min_elements max_elements separator =>
      let split_list := split_string_list test_string separator in
      count_in_range (List.length split_list) min_elements max_elements
      && forallb (match_ pattern) split_list
  | Map key_pattern value_pattern min_elements max_elements
        separator key_value_separator =>
      let split_list := split_string_list test_string separator in
      count_in_range (List.length split_list) min_elements max_elements
      && forallb
           (fun key_value_pair =>
              match split_string_list key_value_pair key_value_separator with
              | [key; value] =>
                  match_ key_pattern key && match_ value_pattern value
              | _ => false
              end)
           split_list
  | MultipleSelection sequence =>
      forallb (is_option sequence) (split_string_list test_string ",")
  | Bool => is_option "true|false" test_string
  | Anything => true
  | FileName _ => true
  | DirectoryName => true
  end.

(** [Integer()] with its default arguments [min_int_value],
    [max_int_value]. *)
Definition Integer_default : PatternBase := Integer INT_MIN INT_MAX.

(** [Map(key, value)] with its default arguments. *)
Definition Map_default (key_pattern value_pattern : PatternBase) : PatternBase :=
  Map key_pattern value_pattern 0 UINT_MAX "," ":".

End Patterns.

(* ================================================================== *)
(** ** Exceptions *)

Module Exc.
Import Str Patterns.

(** What a call can end with instead of a value.  [OutOfRange] stands
    for a [std::array] subscript past the end and [EmptyContainer] for
    dereferencing [begin()] of an empty container; both are undefined
    behaviour in C++ and errors here.  [UnspecifiedOrder] stands for a
    result that depends on the iteration order of an unordered container
    with two or more entries, which C++ leaves unspecified. *)
Inductive exception : Set :=
| ExcNoMatch (arg1 : string) (arg2 : PatternBase)
| ExcMessage (msg : string)
| ExcDimensionMismatch (arg1 arg2 : nat)
| OutOfRange (index size : nat)
| EmptyContainer
| UnspecifiedOrder.

Inductive result (A : Type) : Type :=
| Ok (a : A)
| Throw (e : exception).
Arguments Ok {A} a.
Arguments Throw {A} e.

Definition bind {A B : Type} (c : result A) (k : A -> result B) : result B :=
  match c with
  | Ok a => k a
  | Throw e => Throw e
  end.

Definition AssertThrow (cond : bool) (exc : exception) : result unit :=
  if cond then Ok tt else Throw exc.

(** [AssertDimension(dim1, dim2)], as compiled in debug mode. *)
Definition AssertDimension (dim1 dim2 : nat) : result unit :=
  AssertThrow (Nat.eqb dim1 dim2) (ExcDimensionMismatch dim1 dim2).

Fixpoint mapM {A B : Type} (f : A -> result B) (l : list A) : result (list B) :=
  match l with
  | [] => Ok []
  | x :: l' =>
      bind (f x) (fun y => bind (mapM f l') (fun ys => Ok (y :: ys)))
  end.

(** A range-based [for] loop whose body updates [acc] and may throw. *)
Fixpoint for_each {A B : Type} (body : B -> A -> result B) (l : list A) (acc : B)
  : result B :=
  match l with
  | [] => Ok acc
  | x :: l' => bind (body acc x) (for_each body l')
  end.

Section What.

(** [PatternBase::description(Machine)], declared in the header and
    defined elsewhere. *)
Variable description : PatternBase -> string.

(** The text printed by [DeclException2(ExcNoMatch, ...)]. *)
Definition ExcNoMatch_text (arg1 : string) (arg2 : PatternBase) : string :=
  "The string " ++ arg1 ++ " does not match the pattern " ++ dquote
  ++ description arg2 ++ dquote.

End What.

End Exc.

(* ================================================================== *)
(** ** [Patterns::Tools]: ranks, separator tables and [Convert] *)

Module Tools.
Import Str Dec Utilities Patterns Exc.

Notation "x <- c ;; k" := (bind c (fun x => k))
  (at level 61, c at next level, right associativity).
Notation "c ;;; k" := (bind c (fun _ => k))
  (at level 61, right associativity).

(** The two character types that [Convert] writes and reads as numbers.
    [char] is signed, as it is with GCC on x86. *)
Inductive char_type : Set := plain_char | unsigned_char.

(** [std::numeric_limits<T>::min()] and [max()]. *)
Definition char_min (k : char_type) : Z :=
  match k with plain_char => -128 | unsigned_char => 0 end.

Definition char_max (k : char_type) : Z :=
  match k with plain_char => 127 | unsigned_char => 255 end.

(** [boost::core::demangle(typeid(T).name())]. *)
Definition char_name (k : char_type) : string :=
  match k with plain_char => "char" | unsigned_char => "unsigned char" end.

(** [value = i]: an [int] converted to the eight-bit type, modulo 2^8. *)
Definition narrow (k : char_type) (i : Z) : Z :=
  match k with
  | plain_char => (i + 128) mod 256 - 128
  | unsigned_char => i mod 256
  end.

(** The ordered containers among the list-compatible ones. *)
Inductive set_type : Set := std_set | std_multiset.

(** The types [Convert] is specialised for: [bool], [int],
    [std::string], a sequence container ([std::vector], [std::deque],
    [std::list]), [std::map], [std::complex], [std::pair], [char] and
    [unsigned char], [std::set] and [std::multiset]. *)
Inductive shape : Set :=
| TBool
| TInt
| TString
| TVector (value_type : shape)
| TMap (key_type mapped_type : shape)
| TComplex (Number : shape)
| TPair (Key Value : shape)
| TChar (k : char_type)
| TSet (k : set_type) (value_type : shape).

(** The values of a type; containers list their elements in iteration
    order. *)
Fixpoint value_of (T : shape) : Type :=
  match T with
  | TBool => bool
  | TInt => Z
  | TString => string
  | TVector value_type => list (value_of value_type)
  | TMap key_type mapped_type => list (value_of key_type * value_of mapped_type)
  | TComplex Number => (value_of Number * value_of Number)%type
  | TPair Key Value => (value_of Key * value_of Value)%type
  | TChar _ => Z
  | TSet _ value_type => list (value_of value_type)
  end.

(** *** [internal::RankInfo] *)

Fixpoint list_rank (T : shape) : nat :=
  match T with
  | TBool | TInt | TString | TChar _ => 0
  | TVector value_type | TSet _ value_type => list_rank value_type + 1
  | TMap key_type mapped_type =>
      Nat.max (list_rank key_type) (list_rank mapped_type) + 1
  | TComplex Number => list_rank Number + 1
  | TPair Key Value => Nat.max (list_rank Key) (list_rank Value)
  end.

Fixpoint map_rank (T : shape) : nat :=
  match T with
  | TBool | TInt | TString | TChar _ => 0
  | TVector value_type | TSet _ value_type => map_rank value_type
  | TMap key_type mapped_type =>
      Nat.max (map_rank key_type) (map_rank mapped_type) + 1
  | TComplex Number => map_rank Number
  | TPair Key Value => Nat.max (map_rank Key) (map_rank Value) + 1
  end.

(** *** Separator tables *)

Definition default_list_separator : list string := [","; ";"; "|"; "%"].
Definition default_map_separator : list string := [":"; "="; "@"; "#"].

(** [table[i]] on a [std::array<std::string, 4>]. *)
Definition at_index (table : list string) (i : nat) : result string :=
  match nth_error table i with
  | Some sep => Ok sep
  | None => Throw (OutOfRange i (List.length table))
  end.

(** *** Comparison and insertion in associative containers *)

Fixpoint lexicographic {A : Type} (lt : A -> A -> bool) (a b : list A) : bool :=
  match a, b with
  | _, [] => false
  | [], _ :: _ => true
  | x :: a', y :: b' =>
      if lt x y then true else if lt y x then false else lexicographic lt a' b'
  end.

Definition pair_less {A B : Type} (ltA : A -> A -> bool) (ltB : B -> B -> bool)
  (a b : A * B) : bool :=
  ltA (fst a) (fst b) || (negb (ltA (fst b) (fst a)) && ltB (snd a) (snd b)).

(** [operator<] ([std::less]); [std::complex] has none. *)
Fixpoint less (T : shape) : value_of T -> value_of T -> bool :=
  match T return value_of T -> value_of T -> bool with
  | TBool => fun a b => negb a && b
  | TInt => Z.ltb
  | TString => String.ltb
  | TVector value_type => lexicographic (less value_type)
  | TMap key_type mapped_type =>
      lexicographic (pair_less (less key_type) (less mapped_type))
  | TComplex Number => fun _ _ => false
  | TPair Key Value => pair_less (less Key) (less Value)
  | TChar _ => Z.ltb
  | TSet _ value_type => lexicographic (less value_type)
  end.

Fixpoint list_equal {A : Type} (eq : A -> A -> bool) (a b : list A) : bool :=
  match a, b with
  | [], [] => true
  | x :: a', y :: b' => eq x y && list_equal eq a' b'
  | _, _ => false
  end.

Definition pair_equal {A B : Type} (eqA : A -> A -> bool) (eqB : B -> B -> bool)
  (a b : A * B) : bool :=
  eqA (fst a) (fst b) && eqB (snd a) (snd b).

(** [operator==] ([std::equal_to]). *)
Fixpoint equal (T : shape) : value_of T -> value_of T -> bool :=
  match T return value_of T -> value_of T -> bool with
  | TBool => Bool.eqb
  | TInt => Z.eqb
  | TString => String.eqb
  | TVector value_type => list_equal (equal value_type)
  | TMap key_type mapped_type =>
      list_equal (pair_equal (equal key_type) (equal mapped_type))
  | TComplex Number => pair_equal (equal Number) (equal Number)
  | TPair Key Value => pair_equal (equal Key) (equal Value)
  | TChar _ => Z.eqb
  | TSet _ value_type => list_equal (equal value_type)
  end.

(** [std::map::insert]: the entry goes to its place in key order unless
    an entry with an equivalent key is present. *)
Fixpoint map_insert {K V : Type} (lt : K -> K -> bool) (e : K * V)
  (m : list (K * V)) : list (K * V) :=
  match m with
  | [] => [e]
  | e' :: m' =>
      if lt (fst e) (fst e') then e :: m
      else if lt (fst e') (fst e) then e' :: map_insert lt e m'
      else m
  end.

(** [std::unordered_map::insert]: the entry is added unless an entry with
    an equal key is present.  The entries are listed in the order they
    were added; the order in which the container iterates them is
    unspecified and is never read off this list, see [unordered_begin]. *)
Fixpoint unordered_insert {K V : Type} (eq : K -> K -> bool) (e : K * V)
  (m : list (K * V)) : list (K * V) :=
  match m with
  | [] => [e]
  | e' :: m' => if eq (fst e) (fst e') then m else e' :: unordered_insert eq e m'
  end.

(** [*m.begin()] on a [std::unordered_map]: the entry of a map with one
    entry.  Which entry of a larger map comes first is unspecified. *)
Definition unordered_begin {A : Type} (m : list A) : result A :=
  match m with
  | [] => Throw EmptyContainer
  | [e] => Ok e
  | _ :: _ :: _ => Throw UnspecifiedOrder
  end.

(** [std::set::insert(end(), x)]: [x] goes to its place in the order
    unless an equivalent element is present. *)
Fixpoint set_insert {A : Type} (lt : A -> A -> bool) (x : A) (t : list A) : list A :=
  match t with
  | [] => [x]
  | y :: t' =>
      if lt x y then x :: t
      else if lt y x then y :: set_insert lt x t'
      else t
  end.

(** [std::multiset::insert(end(), x)]: [x] goes as close to the end as
    the order allows, behind the elements equivalent to it. *)
Fixpoint multiset_insert {A : Type} (lt : A -> A -> bool) (x : A) (t : list A)
  : list A :=
  match t with
  | [] => [x]
  | y :: t' => if lt x y then x :: t else y :: multiset_insert lt x t'
  end.

(** [t.insert(t.end(), x)] on an ordered container. *)
Definition insert_at_end (k : set_type) {A : Type} (lt : A -> A -> bool)
  : A -> list A -> list A :=
  match k with
  | std_set => set_insert lt
  | std_multiset => multiset_insert lt
  end.

(** *** [Convert]: the container specialisations, generic in the element
    conversions *)

(** [s = vec[0]; for (i = 1; i < vec.size(); ++i)
      s += separator + " " + vec[i];] *)
Definition join (vec : list string) (separator : string) : string :=
  match vec with
  | [] => EmptyString
  | v0 :: rest =>
      fold_left (fun s vi => s ++ ((separator ++ " ") ++ vi)) rest v0
  end.

Section ListCompatible.

Context {E : Type}.
Variable elem_to_string : E -> PatternBase -> result string.
Variable elem_to_value : string -> PatternBase -> result E.

Definition list_to_string (t : list E) (pattern : PatternBase) : result string :=
  match pattern with
  | List base_p _ _ separator =>
      vec <- mapM (fun ti => elem_to_string ti base_p) t ;;
      let s := join vec separator in
      AssertThrow (match_ pattern s) (ExcNoMatch s pattern) ;;;
      Ok s
  | _ => Throw (ExcMessage
                  "I need a List pattern to convert a string to a List type.")
  end.

(** [t.insert(t.end(), x)] on a sequence container appends. *)
Definition list_to_value (s : string) (pattern : PatternBase) : result (list E) :=
  AssertThrow (match_ pattern s) (ExcNoMatch s pattern) ;;;
  match pattern with
  | List base_p _ _ separator =>
      let v := split_string_list s separator in
      for_each (fun t str => x <- elem_to_value str base_p ;; Ok (t ++ [x])%list) v []
  | _ => Throw (ExcMessage
                  "I need a List pattern to convert a string to a List type.")
  end.

(** The same function on a [std::set] or [std::multiset], where
    [t.insert(t.end(), x)] puts [x] at its place in the order. *)
Variable insert : E -> list E -> list E.

Definition set_to_value (s : string) (pattern : PatternBase) : result (list E) :=
  AssertThrow (match_ pattern s) (ExcNoMatch s pattern) ;;;
  match pattern with
  | List base_p _ _ separator =>
      let v := split_string_list s separator in
      for_each (fun t str => x <- elem_to_value str base_p ;; Ok (insert x t)) v []
  | _ => Throw (ExcMessage
                  "I need a List pattern to convert a string to a List type.")
  end.

Definition complex_to_string (t : E * E) (pattern : PatternBase) : result string :=
  match pattern with
  | List base_p _ _ separator =>
      re <- elem_to_string (fst t) base_p ;;
      im <- elem_to_string (snd t) base_p ;;
      let s := ((re ++ separator) ++ " ") ++ im in
      AssertThrow (match_ pattern s) (ExcNoMatch s pattern) ;;;
      Ok s
  | _ => Throw (ExcMessage
         "I need a List pattern to convert a string to a List compatbile type.")
  end.

Definition complex_to_value (s : string) (pattern : PatternBase) : result (E * E) :=
  AssertThrow (match_ pattern s) (ExcNoMatch s pattern) ;;;
  match pattern with
  | List base_p _ _ separator =>
      let v := split_string_list s separator in
      AssertDimension (List.length v) 2 ;;;
      re <- elem_to_value (nth 0 v EmptyString) base_p ;;
      im <- elem_to_value (nth 1 v EmptyString) base_p ;;
      Ok (re, im)
  | _ => Throw (ExcMessage
         "I need a List pattern to convert a string to a List compatbile type.")
  end.

End ListCompatible.

Section MapCompatible.

Context {K V : Type}.
Variable key_to_string : K -> PatternBase -> result string.
Variable mapped_to_string : V -> PatternBase -> result string.
Variable key_to_value : string -> PatternBase -> result K.
(** [Convert<mapped_type>::to_value(s)], the pattern argument defaulted. *)
Variable mapped_to_value_default : string -> result V.
(** [t.insert(entry)] of the container at hand. *)
Variable insert : K * V -> list (K * V) -> list (K * V).

Definition map_to_string (t : list (K * V)) (pattern : PatternBase)
  : result string :=
  match pattern with
  | Map key_p val_p _ _ separator key_value_separator =>
      vec <- mapM (fun ti =>
                     k <- key_to_string (fst ti) key_p ;;
                     v <- mapped_to_string (snd ti) val_p ;;
                     Ok ((k ++ key_value_separator) ++ v)) t ;;
      let s := join vec separator in
      AssertThrow (match_ pattern s) (ExcNoMatch s pattern) ;;;
      Ok s
  | _ => Throw (ExcMessage
         "I need a Map pattern to convert a string to a Map compatbile type.")
  end.

Definition map_to_value (s : string) (pattern : PatternBase)
  : result (list (K * V)) :=
  AssertThrow (match_ pattern s) (ExcNoMatch s pattern) ;;;
  match pattern with
  | Map key_p val_p _ _ separator key_value_separator =>
      let v := split_string_list s separator in
      for_each
        (fun t str =>
           let key_val := split_string_list str key_value_separator in
           AssertDimension (List.length key_val) 2 ;;;
           k <- key_to_value (nth 0 key_val EmptyString) key_p ;;
           x <- mapped_to_value_default (nth 1 key_val EmptyString) ;;
           Ok (insert (k, x) t))
        v []
  | _ => Throw (ExcMessage
         "I need a Map pattern to convert a string to a Map compatible type.")
  end.

End MapCompatible.

(** *** [Convert<T>::to_pattern] *)

Fixpoint to_pattern (T : shape) : result PatternBase :=
  match T with
  | TBool => Ok Bool
  | TInt => Ok (Integer INT_MIN INT_MAX)
  | TString => Ok Anything
  | TVector value_type =>
      base <- to_pattern value_type ;;
      sep <- at_index default_list_separator (list_rank (TVector value_type) - 1) ;;
      Ok (List base 0 UINT_MAX sep)
  | TMap key_type mapped_type =>
      key_p <- to_pattern key_type ;;
      val_p <- to_pattern mapped_type ;;
      sep <- at_index default_list_separator
               (list_rank (TMap key_type mapped_type) - 1) ;;
      kv_sep <- at_index default_map_separator
                  (map_rank (TMap key_type mapped_type) - 1) ;;
      Ok (Map key_p val_p 0 UINT_MAX sep kv_sep)
  | TComplex Number =>
      base <- to_pattern Number ;;
      sep <- at_index default_list_separator (list_rank (TComplex Number) - 1) ;;
      Ok (List base 2 2 sep)
  | TPair Key Value =>
      key_p <- to_pattern Key ;;
      val_p <- to_pattern Value ;;
      sep <- at_index default_list_separator (list_rank (TPair Key Value)) ;;
      kv_sep <- at_index default_map_separator (map_rank (TPair Key Value) - 1) ;;
      Ok (Map key_p val_p 1 1 sep kv_sep)
  | TChar k => Ok (Integer (char_min k) (char_max k))
  | TSet k value_type =>
      base <- to_pattern value_type ;;
      sep <- at_index default_list_separator
               (list_rank (TSet k value_type) - 1) ;;
      Ok (List base 0 UINT_MAX sep)
  end.

(** *** [Convert<T>::to_string] *)

Fixpoint to_string (T : shape) : value_of T -> PatternBase -> result string :=
  match T return value_of T -> PatternBase -> result string with
  | TBool => fun value p =>
      let str := if value then "true" else "false" in
      AssertThrow (match_ p str) (ExcNoMatch str p) ;;;
      Ok str
  | TInt => fun value p =>
      let str := Dec.to_string value in
      AssertThrow (match_ p str) (ExcNoMatch str p) ;;;
      Ok str
  | TString => fun t pattern =>
      AssertThrow (match_ pattern t) (ExcNoMatch t pattern) ;;;
      Ok t
  | TVector value_type => list_to_string (to_string value_type)
  | TMap key_type mapped_type =>
      map_to_string (to_string key_type) (to_string mapped_type)
  | TComplex Number => complex_to_string (to_string Number)
  | TPair Key Value => fun t pattern =>
      let m := unordered_insert (equal Key) t [] in
      s <- map_to_string (to_string Key) (to_string Value) m pattern ;;
      AssertThrow (match_ pattern s) (ExcNoMatch s pattern) ;;;
      Ok s
  | TChar _ => fun value p =>
      let str := Dec.to_string value in
      AssertThrow (match_ p str) (ExcNoMatch str p) ;;;
      Ok str
  | TSet _ value_type => list_to_string (to_string value_type)
  end.

(** *** [Convert<T>::to_value] *)

Definition failed_to_convert (s type_name : string) : exception :=
  ExcMessage ("Failed to convert from " ++ dquote ++ s ++ dquote
              ++ " to the type " ++ dquote ++ type_name ++ dquote).

Fixpoint to_value (T : shape) : string -> PatternBase -> result (value_of T) :=
  match T return string -> PatternBase -> result (value_of T) with
  | TBool => fun s p =>
      AssertThrow (match_ p s) (ExcNoMatch s p) ;;;
      Ok (String.eqb s "true")
  | TInt => fun s p =>
      AssertThrow (match_ p s) (ExcNoMatch s p) ;;;
      match extract_int s with
      | Some value => Ok value
      | None => Throw (failed_to_convert s "int")
      end
  | TString => fun s pattern =>
      AssertThrow (match_ pattern s) (ExcNoMatch s pattern) ;;;
      Ok s
  | TVector value_type => list_to_value (to_value value_type)
  | TMap key_type mapped_type =>
      map_to_value (to_value key_type)
        (fun s => p <- to_pattern mapped_type ;; to_value mapped_type s p)
        (map_insert (less key_type))
  | TComplex Number => complex_to_value (to_value Number)
  | TPair Key Value => fun s pattern =>
      m <- map_to_value (to_value Key)
             (fun s => p <- to_pattern Value ;; to_value Value s p)
             (unordered_insert (equal Key)) s pattern ;;
      unordered_begin m
  | TChar k => fun s p =>
      AssertThrow (match_ p s) (ExcNoMatch s p) ;;;
      match extract_int s with
      | Some i => Ok (narrow k i)
      | None => Throw (failed_to_convert s (char_name k))
      end
  | TSet k value_type =>
      set_to_value (to_value value_type) (insert_at_end k (less value_type))
  end.

(** The conversions with the pattern argument defaulted to
    [Convert<T>::to_pattern()]. *)
Definition to_string_default (T : shape) (t : value_of T) : result string :=
  p <- to_pattern T ;; to_string T t p.

Definition to_value_default (T : shape) (s : string) : result (value_of T) :=
  p <- to_pattern T ;; to_value T s p.

End Tools.

(* ================================================================== *)
(** ** The text of a [double] *)

Module Floating.
Import Str Dec Patterns Exc.

(** An IEEE 754 binary64 number: a finite number is
    [(-1)^negative * mantissa * 2^exponent]. *)
Inductive double : Set :=
| Finite (negative : bool) (mantissa : N) (exponent : Z)
| Infinity (negative : bool)
| NaN (negative : bool).

(** The mantissa has at most 53 bits and the exponent is in range. *)
Definition is_double (x : double) : bool :=
  match x with
  | Finite _ m e => (m <? 2 ^ 53)%N && (-1074 <=? e) && (e <=? 971)
  | _ => true
  end.

(** [x == y] on finite numbers. *)
Definition same_value (x y : double) : bool :=
  match x, y with
  | Finite sx mx ex, Finite sy my ey =>
      let low := Z.min ex ey in
      (Z.of_N mx * 2 ^ (ex - low) =? Z.of_N my * 2 ^ (ey - low))
      && (Bool.eqb sx sy || (mx =? 0)%N)
  | _, _ => false
  end.

(** [n / d] rounded to the nearest integer, ties to even. *)
Definition round_half_even (n d : Z) : Z :=
  let q := n / d in
  let r := n mod d in
  if 2 * r <? d then q
  else if d <? 2 * r then q + 1
  else if Z.even q then q else q + 1.

(** [count] decimal digits of [n], leading zeros included, pushed in
    front of [acc]. *)
Fixpoint fixed_digits (count : nat) (n : Z) (acc : string) : string :=
  match count with
  | O => acc
  | S k => fixed_digits k (n / 10) (String (digit_char (n mod 10)) acc)
  end.

(** [std::to_string(double)], which prints as [printf("%f")] does: the
    sign, the integer part, a point and six decimals, the number being
    rounded to the nearest multiple of [10^-6]. *)
Definition to_string (x : double) : string :=
  match x with
  | Finite s m e =>
      let millionths :=
        if 0 <=? e then Z.of_N m * 2 ^ e * 1000000
        else round_half_even (Z.of_N m * 1000000) (2 ^ (- e)) in
      (if s then "-" else "")
      ++ decimal (millionths / 1000000)
      ++ "." ++ fixed_digits 6 (millionths mod 1000000) ""
  | Infinity s => (if s then "-" else "") ++ "inf"
  | NaN s => (if s then "-" else "") ++ "nan"
  end.

(** [Convert<double>::to_string]. *)
Definition Convert_to_string (value : double) (p : PatternBase) : result string :=
  let str := to_string value in
  bind (AssertThrow (match_ p str) (ExcNoMatch str p)) (fun _ => Ok str).

End Floating.

Import Str Dec Utilities Patterns Exc Tools.

(* ================================================================== *)
(** ** Vocabulary of the statements *)

Module Spec.
Import Str Dec Utilities Patterns Exc Tools.

(** [part] occurs in [whole]. *)
Definition occurs_in (part whole : string) : Prop :=
  exists before after, whole = before ++ part ++ after.

(** A map entry that splits into exactly a key and a value, each
    matching its pattern. *)
Definition entry_ok (key_pattern value_pattern : PatternBase)
  (key_value_separator entry : string) : Prop :=
  exists key value,
    split_string_list entry key_value_separator = [key; value]
    /\ match_ key_pattern key = true /\ match_ value_pattern value = true.

(** The text of a map entry: key, key/value separator, value. *)
Definition entry_text (key_value_separator : string) (kv : string * string) : string :=
  fst kv ++ key_value_separator ++ snd kv.

(** Position of a one-character separator in a separator table. *)
Fixpoint index_of (c : ascii) (table : list string) : option nat :=
  match table with
  | [] => None
  | sep :: rest =>
      if String.eqb sep (String c EmptyString) then Some 0%nat
      else option_map S (index_of c rest)
  end.

(** Characters that may occur in the text of a type of the given ranks:
    everything but the separators the enclosing levels will use. *)
Definition allowed (lr mr : nat) (c : ascii) : bool :=
  match index_of c default_list_separator with
  | Some i => (i <? lr)%nat
  | None =>
      match index_of c default_map_separator with
      | Some j => (j <? mr)%nat
      | None => true
      end
  end.

Fixpoint strictly_increasing {A : Type} (lt : A -> A -> bool) (l : list A) : bool :=
  match l with
  | [] => true
  | x :: l' =>
      forallb (fun y => lt x y && negb (lt y x)) l' && strictly_increasing lt l'
  end.

Fixpoint nondecreasing {A : Type} (lt : A -> A -> bool) (l : list A) : bool :=
  match l with
  | [] => true
  | x :: l' => forallb (fun y => negb (lt y x)) l' && nondecreasing lt l'
  end.

(** The order in which an ordered container iterates its elements. *)
Definition ordered (k : set_type) {A : Type} (lt : A -> A -> bool) (l : list A)
  : bool :=
  match k with
  | std_set => strictly_increasing lt l
  | std_multiset => nondecreasing lt l
  end.

Definition is_nil {A : Type} (l : list A) : bool :=
  match l with [] => true | _ => false end.

(** The element count fits the default pattern. *)
Definition fits {A : Type} (t : list A) : bool :=
  negb (UINT_MAX <? N.of_nat (List.length t))%N.

(** The characters of the separator [table[i]]; none past the table. *)
Definition separator_chars (table : list string) (i : nat) : list ascii :=
  match nth_error table i with
  | Some sep => list_ascii_of_string sep
  | None => []
  end.

(** None of the characters [F] occurs in [s]. *)
Definition free_of_all (F : list ascii) (s : string) : bool :=
  forallb (fun c => free_of c s) F.

(** No white space at either end. *)
Definition unpadded (s : string) : bool := String.eqb (trim s) s.

(** Empty, or starting with something else than white space. *)
Definition starts_ok (s : string) : bool :=
  match s with
  | EmptyString => true
  | String c _ => negb (is_space c)
  end.

(** The values that are written as the empty text: the empty string, the
    empty container, and the container of one such value. *)
Fixpoint blank (T : shape) : value_of T -> bool :=
  match T return value_of T -> bool with
  | TString => is_empty
  | TVector value_type => fun t =>
      match t with
      | [] => true
      | [x] => blank value_type x
      | _ :: _ :: _ => false
      end
  | TSet _ value_type => fun t =>
      match t with
      | [] => true
      | [x] => blank value_type x
      | _ :: _ :: _ => false
      end
  | TMap _ _ => is_nil
  | TBool | TInt | TChar _ | TComplex _ | TPair _ _ => fun _ => false
  end.

(** A container whose only element is written as the empty text. *)
Definition lone_blank (T : shape) (t : list (value_of T)) : bool :=
  match t with
  | [x] => blank T x
  | _ => false
  end.

(** The values for which the text form is faithful, [F] being the
    separator characters of the enclosing levels:
    - numbers fit their type;
    - a string has no white space at either end and none of the
      characters [F];
    - a container has no more than [UINT_MAX] elements, is not a single
      element written as the empty text, and a [std::map] lists its keys,
      a [std::set] or [std::multiset] its elements, in the order of the
      container;
    - what is nested one level deeper also has to avoid the separators of
      this level. *)
Fixpoint faithful (F : list ascii) (T : shape) : value_of T -> bool :=
  match T return value_of T -> bool with
  | TBool => fun _ => true
  | TInt => in_int_range
  | TChar k => fun v => (char_min k <=? v) && (v <=? char_max k)
  | TString => fun s => unpadded s && free_of_all F s
  | TVector value_type => fun t =>
      let F' := (separator_chars default_list_separator (list_rank value_type)
                 ++ F)%list in
      fits t && negb (lone_blank value_type t)
      && forallb (faithful F' value_type) t
  | TSet k value_type => fun t =>
      let F' := (separator_chars default_list_separator (list_rank value_type)
                 ++ F)%list in
      fits t && negb (lone_blank value_type t)
      && forallb (faithful F' value_type) t
      && ordered k (less value_type) t
  | TMap key_type mapped_type => fun t =>
      let F' := (separator_chars default_list_separator
                   (Nat.max (list_rank key_type) (list_rank mapped_type))
                 ++ separator_chars default_map_separator
                      (Nat.max (map_rank key_type) (map_rank mapped_type))
                 ++ F)%list in
      fits t
      && forallb (fun e => faithful F' key_type (fst e)
                           && faithful F' mapped_type (snd e)) t
      && strictly_increasing (less key_type) (map fst t)
  | TComplex Number => fun t =>
      let F' := (separator_chars default_list_separator (list_rank Number)
                 ++ F)%list in
      faithful F' Number (fst t) && faithful F' Number (snd t)
  | TPair Key Value => fun t =>
      let F' := (separator_chars default_list_separator
                   (Nat.max (list_rank Key) (list_rank Value))
                 ++ separator_chars default_map_separator
                      (Nat.max (map_rank Key) (map_rank Value))
                 ++ F)%list in
      faithful F' Key (fst t) && faithful F' Value (snd t)
  end.

(** The outermost value: a string is written as it is, whatever it
    holds; every other value is as above, with no enclosing level. *)
Definition representable (T : shape) : value_of T -> bool :=
  match T return value_of T -> bool with
  | TString => fun _ => true
  | T' => faithful [] T'
  end.

(** [r] is the text of the nested value [x]: [x] is written as [r]; [r],
    also after trimming, matches the pattern and is read back as [x]; [r]
    does not start with white space and has none of the characters [F];
    and [r] is empty only if [x] is [blank]. *)
Definition text_of (F : list ascii) (T : shape) (p : PatternBase)
  (x : value_of T) (r : string) : Prop :=
  to_string T x p = Ok r
  /\ to_value T r p = Ok x
  /\ to_value T (trim r) p = Ok x
  /\ match_ p (trim r) = true
  /\ starts_ok r = true
  /\ free_of_all F r = true
  /\ (blank T x = false -> is_empty r = false).

(** [e] is the text of the map entry [kv], with [d] between key and
    value. *)
Definition entry_of (F : list ascii) (K V : shape) (kp vp : PatternBase)
  (d : ascii) (kv : value_of K * value_of V) (e : string) : Prop :=
  exists rk rv,
    e = (rk ++ String d "") ++ rv
    /\ text_of F K kp (fst kv) rk /\ text_of F V vp (snd kv) rv.

(** The reading of one map entry: the token splits into a key part, read
    with the key pattern [kp], and a value part, read with the default
    pattern of the mapped type. *)
Definition entry_read (K V : shape) (kp : PatternBase) (kvs : string)
  (tok : string) (kv : value_of K * value_of V) : Prop :=
  exists key value,
    split_string_list tok kvs = [key; value]
    /\ to_value K key kp = Ok (fst kv)
    /\ to_value_default V value = Ok (snd kv).

End Spec.

(* ================================================================== *)
(** ** Vocabulary of the further properties *)

Module Coverage.
Import Str Dec Utilities Patterns Exc Tools.

(** [dynamic_cast<const Patterns::List *>] succeeds. *)
Definition is_List (p : PatternBase) : bool :=
  match p with List _ _ _ _ => true | _ => false end.

(** [dynamic_cast<const Patterns::Map *>] succeeds. *)
Definition is_Map (p : PatternBase) : bool :=
  match p with Map _ _ _ _ _ _ => true | _ => false end.

(** The type has a [std::pair] somewhere inside. *)
Fixpoint has_pair (T : shape) : bool :=
  match T with
  | TBool | TInt | TString | TChar _ => false
  | TVector value_type | TSet _ value_type => has_pair value_type
  | TMap key_type mapped_type => has_pair key_type || has_pair mapped_type
  | TComplex Number => has_pair Number
  | TPair _ _ => true
  end.

(** [*m.begin()]. *)
Definition first_entry {A : Type} (m : list A) : result A :=
  match m with
  | e :: _ => Ok e
  | [] => Throw EmptyContainer
  end.

(** A list of exactly two elements read as real and imaginary part. *)
Definition two_elements {A : Type} (l : list A) : result (A * A) :=
  match l with
  | [re; im] => Ok (re, im)
  | _ => Throw (ExcDimensionMismatch (List.length l) 2)
  end.

End Coverage.

(* ================================================================== *)
(** * Properties *)

Import Spec.

(** ** Strings *)

Ltac ascii_cases c := destruct c as [[] [] [] [] [] [] [] []].

Lemma all_app P a b : Str.all P (a ++ b) = Str.all P a && Str.all P b.
Proof.
  induction a as [|c a IH]; simpl; [reflexivity|].
  rewrite IH. apply andb_assoc.
Qed.

Lemma all_impl (P Q : ascii -> bool) s :
  (forall c, P c = true -> Q c = true) -> Str.all P s = true -> Str.all Q s = true.
Proof.
  intros HPQ. induction s as [|c s IH]; simpl; [reflexivity|].
  intros H. apply andb_prop in H as [Hc Hs].
  rewrite (HPQ _ Hc), (IH Hs). reflexivity.
Qed.

Lemma append_assoc a b c : (a ++ b) ++ c = a ++ (b ++ c).
Proof. induction a as [|x a IH]; simpl; [|rewrite IH]; reflexivity. Qed.

Lemma starts_clean_ltrim s : starts_clean s = true -> ltrim s = s.
Proof.
  destruct s as [|c s]; simpl; [discriminate|].
  intros H. apply negb_true_iff in H. rewrite H. reflexivity.
Qed.

Lemma ends_clean_rtrim s : ends_clean s = true -> rtrim s = s.
Proof.
  induction s as [|c s IH]; simpl; [discriminate|].
  destruct s as [|d s].
  - intros H. apply negb_true_iff in H. simpl. rewrite H. reflexivity.
  - intros H. specialize (IH H). rewrite IH. reflexivity.
Qed.

Lemma clean_trim s : starts_clean s = true -> ends_clean s = true -> trim s = s.
Proof.
  intros Hs He. unfold trim. rewrite (starts_clean_ltrim _ Hs).
  apply ends_clean_rtrim, He.
Qed.

Lemma starts_clean_nonempty s : starts_clean s = true -> is_empty s = false.
Proof. destruct s; simpl; [discriminate|reflexivity]. Qed.

Lemma is_empty_app a b : is_empty a = false -> is_empty (a ++ b) = false.
Proof. destruct a; simpl; [discriminate|reflexivity]. Qed.

(** ** Decimal text *)

Lemma digit_not_space c : is_digit c = true -> is_space c = false.
Proof. ascii_cases c; vm_compute; congruence. Qed.

Lemma digit_not_sign c :
  is_digit c = true -> Ascii.eqb c "-" = false /\ Ascii.eqb c "+" = false.
Proof. ascii_cases c; vm_compute; intuition congruence. Qed.

Lemma digit_char_spec d :
  0 <= d < 10 -> is_digit (digit_char d) = true /\ digit_value (digit_char d) = d.
Proof.
  intros H.
  assert (d = 0 \/ d = 1 \/ d = 2 \/ d = 3 \/ d = 4 \/ d = 5 \/ d = 6 \/ d = 7
          \/ d = 8 \/ d = 9) as Hd by lia.
  repeat (destruct Hd as [-> | Hd]; [split; reflexivity|]).
  subst d. split; reflexivity.
Qed.

Lemma digits_of_all fuel : forall n acc,
  0 <= n -> Str.all is_digit acc = true -> Str.all is_digit (digits_of fuel n acc) = true.
Proof.
  induction fuel as [|f IH]; intros n acc Hn Hacc; simpl.
  - rewrite (proj1 (digit_char_spec (n mod 10) (Z.mod_pos_bound n 10 eq_refl))).
    assumption.
  - assert (Str.all is_digit (String (digit_char (n mod 10)) acc) = true) as H.
    { simpl.
      rewrite (proj1 (digit_char_spec (n mod 10) (Z.mod_pos_bound n 10 eq_refl))).
      assumption. }
    destruct (n <? 10); [exact H|].
    apply IH; [apply Z.div_pos; lia | exact H].
Qed.

Lemma digits_of_nonempty fuel : forall n acc, is_empty (digits_of fuel n acc) = false.
Proof.
  induction fuel as [|f IH]; intros n acc; simpl; [reflexivity|].
  destruct (n <? 10); [reflexivity|apply IH].
Qed.

Lemma parse_digits_cons a c s :
  parse_digits a (String c s)
  = if is_digit c then parse_digits (10 * a + digit_value c) s else None.
Proof. reflexivity. Qed.

Lemma digits_of_parse fuel : forall n,
  0 <= n < 10 ^ (Z.of_nat fuel + 1) ->
  exists k, 0 <= k /\
    forall acc a, parse_digits a (digits_of fuel n acc)
                  = parse_digits (a * 10 ^ k + n) acc.
Proof.
  assert (forall n acc a, 0 <= n < 10 ->
            parse_digits a (String (digit_char (n mod 10)) acc)
            = parse_digits (a * 10 ^ 1 + n) acc) as Hone.
  { intros n acc a Hn. rewrite parse_digits_cons.
    rewrite (Z.mod_small n 10 Hn).
    destruct (digit_char_spec n Hn) as [-> ->].
    f_equal. change (10 ^ 1) with 10. lia. }
  induction fuel as [|f IH]; intros n Hn.
  - exists 1. split; [lia|]. intros acc a. apply Hone.
    change (Z.of_nat 0 + 1) with 1 in Hn. lia.
  - destruct (Z.ltb_spec n 10) as [Hlt|Hge].
    + exists 1. split; [lia|]. intros acc a. simpl digits_of.
      destruct (Z.ltb_spec n 10); [|lia]. apply Hone. lia.
    + destruct (IH (n / 10)) as (k & Hk & Heq).
      { split; [apply Z.div_pos; lia|].
        apply Z.div_lt_upper_bound; [lia|].
        replace (Z.of_nat (S f) + 1) with (Z.succ (Z.of_nat f + 1)) in Hn by lia.
        rewrite Z.pow_succ_r in Hn by lia. lia. }
      exists (k + 1). split; [lia|]. intros acc a. simpl digits_of.
      destruct (Z.ltb_spec n 10); [lia|].
      rewrite Heq, parse_digits_cons.
      destruct (digit_char_spec (n mod 10) (Z.mod_pos_bound n 10 eq_refl)) as [-> ->].
      f_equal. rewrite Z.pow_add_r by lia.
      pose proof (Z.div_mod n 10). lia.
Qed.

Lemma fuel_enough n : 0 <= n -> n < 10 ^ (Z.of_nat (Z.to_nat (Z.log2 n)) + 1).
Proof.
  intros Hn. rewrite Z2Nat.id by apply Z.log2_nonneg.
  destruct (Z.eq_dec n 0) as [->|Hne]; [reflexivity|].
  pose proof (Z.log2_spec n ltac:(lia)) as [_ Hup].
  eapply Z.lt_le_trans; [exact Hup|].
  replace (Z.succ (Z.log2 n)) with (Z.log2 n + 1) by lia.
  apply Z.pow_le_mono_l. lia.
Qed.

Lemma decimal_spec n :
  0 <= n ->
  Str.all is_digit (decimal n) = true /\ is_empty (decimal n) = false
  /\ parse_unsigned (decimal n) = Some n.
Proof.
  intros Hn. unfold decimal. split; [|split].
  - apply digits_of_all; [assumption|reflexivity].
  - apply digits_of_nonempty.
  - unfold parse_unsigned. rewrite digits_of_nonempty.
    destruct (digits_of_parse _ n (conj Hn (fuel_enough n Hn))) as (k & _ & Heq).
    rewrite Heq. reflexivity.
Qed.

Lemma digit_prefix_all s : Str.all is_digit s = true -> digit_prefix s = s.
Proof.
  induction s as [|c s IH]; simpl; [reflexivity|].
  intros H. apply andb_prop in H as [Hc Hs]. rewrite Hc, (IH Hs). reflexivity.
Qed.

Lemma parse_integer_to_string v : parse_integer (Dec.to_string v) = Some v.
Proof.
  unfold Dec.to_string.
  destruct (decimal_spec (Z.abs v) (Z.abs_nonneg v)) as (Hall & Hne & Hparse).
  destruct (Z.ltb_spec v 0) as [Hneg|Hpos].
  - simpl. rewrite Hparse. simpl. f_equal. lia.
  - destruct (decimal (Z.abs v)) as [|c r] eqn:E; [discriminate|].
    simpl in Hall. apply andb_prop in Hall as [Hc _].
    unfold parse_integer.
    destruct (digit_not_sign c Hc) as [-> ->].
    rewrite Hparse. f_equal. lia.
Qed.

Lemma extract_int_to_string v :
  in_int_range v = true -> extract_int (Dec.to_string v) = Some v.
Proof.
  intros Hr. unfold Dec.to_string.
  destruct (decimal_spec (Z.abs v) (Z.abs_nonneg v)) as (Hall & Hne & Hparse).
  unfold extract_int.
  destruct (Z.ltb_spec v 0) as [Hneg|Hpos].
  - simpl. rewrite (digit_prefix_all _ Hall), Hparse.
    replace (- Z.abs v) with v by lia. rewrite Hr. reflexivity.
  - destruct (decimal (Z.abs v)) as [|c r] eqn:E; [discriminate|].
    pose proof Hall as Hall'.
    simpl in Hall. apply andb_prop in Hall as [Hc _].
    simpl ltrim. rewrite (digit_not_space c Hc).
    destruct (digit_not_sign c Hc) as [-> ->].
    rewrite (digit_prefix_all _ Hall'), Hparse.
    replace (Z.abs v) with v by lia. rewrite Hr. reflexivity.
Qed.

(** ** The error monad *)

Lemma assert_true_bind {A : Type} (b : bool) exc (k : result A) :
  b = true -> (AssertThrow b exc ;;; k) = k.
Proof. intros ->. reflexivity. Qed.

Lemma assert_bind_Ok {A : Type} (b : bool) exc (k : result A) (a : A) :
  (AssertThrow b exc ;;; k) = Ok a -> b = true /\ k = Ok a.
Proof. destruct b; cbn; [auto|discriminate]. Qed.

(** ** Joining *)

Lemma concat_cons_app sep a b rest :
  concat sep ((a ++ sep ++ b) :: rest) = a ++ sep ++ concat sep (b :: rest).
Proof.
  destruct rest as [|x xs]; simpl; [reflexivity|].
  rewrite !append_assoc. reflexivity.
Qed.

(** The loop of the source computes the usual join of the pieces with
    the separator followed by one space. *)
Lemma join_concat vec separator :
  join vec separator = concat (separator ++ " ") vec.
Proof.
  destruct vec as [|v0 rest]; [reflexivity|].
  unfold join. revert v0.
  induction rest as [|r rest IH]; intros v0; [reflexivity|].
  cbn [fold_left]. rewrite IH. apply concat_cons_app.
Qed.

(** ** C8: the rank classification *)


(** The ranks quoted in the header's documentation. *)
Example RankInfo_documented :
  (list_rank (TVector TInt) = 1 /\ map_rank (TVector TInt) = 0
   /\ list_rank (TVector (TVector TInt)) = 2
   /\ list_rank (TMap (TVector TInt) (TVector TInt)) = 2
   /\ map_rank (TMap (TVector TInt) (TVector TInt)) = 1)%nat.
Proof. repeat split. Qed.

(** ** C5: separators follow the rank *)

(** C5.  For a list of lists of integers the derived pattern takes its
    separators from the table at [list_rank - 1]: [";"] between the inner
    lists and [","] inside them.  The value [[1,2],[3]] is written as
    ["1, 2; 3"], which reads back as the same value as ["1, 2 ; 3"]. *)
Theorem rank_driven_separators :
  to_pattern (TVector (TVector TInt))
  = Ok (List (List (Integer INT_MIN INT_MAX) 0 UINT_MAX ",") 0 UINT_MAX ";")
  /\ at_index default_list_separator (list_rank (TVector (TVector TInt)) - 1) = Ok ";"
  /\ at_index default_list_separator (list_rank (TVector TInt) - 1) = Ok ","
  /\ to_string_default (TVector (TVector TInt)) [[1; 2]; [3]] = Ok "1, 2; 3"
  /\ to_value_default (TVector (TVector TInt)) "1, 2; 3" = Ok [[1; 2]; [3]]
  /\ to_value_default (TVector (TVector TInt)) "1, 2 ; 3" = Ok [[1; 2]; [3]].
Proof. repeat split; vm_compute; reflexivity. Qed.

(** ** C3: bounds of [Integer] *)

(** C3.  With [upper < lower] the pattern [Integer(lower, upper)] accepts
    every integer text; with ordered bounds it accepts a text exactly when
    the whole text parses as a base-10 integer inside the inclusive
    interval.  [Integer(5,2)] accepts every integer text,
    [Integer(2,5)] accepts ["3"] and rejects ["6"]. *)
Theorem Integer_match_bounds (lower upper : Z) (x : string) :
  (upper < lower ->
   (forall v, parse_integer x = Some v -> match_ (Integer lower upper) x = true)
   /\ (forall z, match_ (Integer lower upper) (Dec.to_string z) = true))
  /\ (lower <= upper ->
      (match_ (Integer lower upper) x = true
       <-> exists v, parse_integer x = Some v /\ lower <= v <= upper))
  /\ (forall v, parse_integer x = Some v -> match_ (Integer 5 2) x = true)
  /\ match_ (Integer 2 5) "3" = true
  /\ match_ (Integer 2 5) "6" = false.
Proof.
  assert (forall lo up s v, up < lo -> parse_integer s = Some v ->
                            match_ (Integer lo up) s = true) as Hinv.
  { intros lo up s v Hlt Hp. simpl. rewrite Hp.
    destruct (Z.leb_spec lo up); [lia|reflexivity]. }
  split; [|split; [|split; [|split]]].
  - intros Hlt. split.
    + intros v Hp. exact (Hinv _ _ _ _ Hlt Hp).
    + intros z. exact (Hinv _ _ _ _ Hlt (parse_integer_to_string z)).
  - intros Hle. simpl.
    destruct (parse_integer x) as [i|].
    + destruct (Z.leb_spec lower upper); [|lia]. split.
      * intros Hm. apply andb_prop in Hm as [H1 H2].
        exists i. split; [reflexivity|]. lia.
      * intros (v & Hv & Hb). injection Hv as ->.
        apply andb_true_intro. split; lia.
    + split; [discriminate|]. intros (v & Hv & _). discriminate.
  - intros v Hp. apply (Hinv 5 2 x v); [lia|exact Hp].
  - reflexivity.
  - reflexivity.
Qed.

Lemma Integer_match_bounds_witness :
  match_ (Integer 5 2) "-17" = true
  /\ (match_ (Integer 2 5) "4" = true
      <-> exists v, parse_integer "4" = Some v /\ 2 <= v <= 5).
Proof.
  split.
  - refine (proj1 (proj1 (Integer_match_bounds 5 2 "-17") _) (-17) _).
    + reflexivity.
    + reflexivity.
  - refine (proj1 (proj2 (Integer_match_bounds 2 5 "4")) _).
    discriminate.
Defined.

(** ** Shape of the derived patterns *)

Lemma bind_Ok_inv {A B : Type} (c : result A) (k : A -> result B) (b : B) :
  bind c k = Ok b -> exists a, c = Ok a /\ k a = Ok b.
Proof. destruct c as [a|e]; simpl; [eauto|discriminate]. Qed.

Lemma to_pattern_vector_inv E p :
  to_pattern (TVector E) = Ok p ->
  exists base sep,
    to_pattern E = Ok base
    /\ at_index default_list_separator (list_rank E) = Ok sep
    /\ p = List base 0 UINT_MAX sep.
Proof.
  simpl. rewrite Nat.add_sub. intros H.
  apply bind_Ok_inv in H as (base & Hb & H).
  apply bind_Ok_inv in H as (sep & Hs & H).
  injection H as <-. eauto.
Qed.

Lemma to_pattern_set_inv k E p :
  to_pattern (TSet k E) = Ok p ->
  exists base sep,
    to_pattern E = Ok base
    /\ at_index default_list_separator (list_rank E) = Ok sep
    /\ p = List base 0 UINT_MAX sep.
Proof.
  simpl. rewrite Nat.add_sub. intros H.
  apply bind_Ok_inv in H as (base & Hb & H).
  apply bind_Ok_inv in H as (sep & Hs & H).
  injection H as <-. eauto.
Qed.

(** ** C6: [to_value] validates first *)

Lemma to_value_no_match T s p :
  match_ p s = false -> to_value T s p = Throw (ExcNoMatch s p).
Proof.
  intros H.
  destruct T; simpl;
    unfold list_to_value, set_to_value, map_to_value, complex_to_value;
    rewrite H; reflexivity.
Qed.

(** C6.  [to_value(text, pattern)] checks the text against the pattern
    before anything else; when the text does not match, the call ends
    with [ExcNoMatch], whose message shows the text and the description
    of the pattern, and no value is returned. *)
Theorem to_value_validates_first
  (description : PatternBase -> string) (T : shape) (s : string) (p : PatternBase) :
  match_ p s = false ->
  to_value T s p = Throw (ExcNoMatch s p)
  /\ occurs_in s (ExcNoMatch_text description s p)
  /\ occurs_in (description p) (ExcNoMatch_text description s p).
Proof.
  intros H. split; [apply to_value_no_match, H|]. split.
  - exists "The string ".
    exists (" does not match the pattern " ++ dquote ++ description p ++ dquote).
    reflexivity.
  - exists ("The string " ++ s ++ " does not match the pattern " ++ dquote).
    exists dquote. unfold ExcNoMatch_text.
    rewrite !append_assoc. reflexivity.
Qed.

Lemma to_value_validates_first_witness :
  to_value (TVector TInt) "1, x"
    (List (Integer INT_MIN INT_MAX) 0 UINT_MAX ",")
  = Throw (ExcNoMatch "1, x" (List (Integer INT_MIN INT_MAX) 0 UINT_MAX ",")).
Proof.
  exact (proj1 (to_value_validates_first (fun _ => "") (TVector TInt) "1, x"
                  (List (Integer INT_MIN INT_MAX) 0 UINT_MAX ",") eq_refl)).
Defined.

(** ** C10: the empty container *)



(** ** C7: [to_string] joins and checks again *)

Lemma mapM_entries {K V : Type}
  (ks : K -> PatternBase -> result string) (vs : V -> PatternBase -> result string)
  kp vp kvs (t : list (K * V)) : forall keys vals,
  mapM (fun ti => ks (fst ti) kp) t = Ok keys ->
  mapM (fun ti => vs (snd ti) vp) t = Ok vals ->
  mapM (fun ti => k <- ks (fst ti) kp ;; v <- vs (snd ti) vp ;; Ok ((k ++ kvs) ++ v)) t
  = Ok (map (entry_text kvs) (combine keys vals)).
Proof.
  induction t as [|[k v] t IH]; intros keys vals Hk Hv; simpl in *.
  - injection Hk as <-. reflexivity.
  - apply bind_Ok_inv in Hk as (k' & Hk' & Hk).
    apply bind_Ok_inv in Hk as (keys' & Hks & Hk). injection Hk as <-.
    apply bind_Ok_inv in Hv as (v' & Hv' & Hv).
    apply bind_Ok_inv in Hv as (vals' & Hvs & Hv). injection Hv as <-.
    rewrite Hk', Hv'. simpl. rewrite (IH _ _ Hks Hvs). simpl.
    unfold entry_text at 1. simpl. rewrite append_assoc. reflexivity.
Qed.

Lemma list_to_string_concat {E : Type} (es : E -> PatternBase -> result string)
  (t : list E) base mn mx sep rendered :
  mapM (fun ti => es ti base) t = Ok rendered ->
  list_to_string es t (List base mn mx sep)
  = if match_ (List base mn mx sep) (concat (sep ++ " ") rendered)
    then Ok (concat (sep ++ " ") rendered)
    else Throw (ExcNoMatch (concat (sep ++ " ") rendered) (List base mn mx sep)).
Proof.
  intros H. unfold list_to_string. rewrite H. cbn [bind].
  rewrite join_concat.
  destruct (match_ _ _); reflexivity.
Qed.

Lemma map_to_string_concat {K V : Type}
  (ks : K -> PatternBase -> result string) (vs : V -> PatternBase -> result string)
  (t : list (K * V)) kp vp mn mx sep kvs keys vals :
  mapM (fun ti => ks (fst ti) kp) t = Ok keys ->
  mapM (fun ti => vs (snd ti) vp) t = Ok vals ->
  map_to_string ks vs t (Map kp vp mn mx sep kvs)
  = if match_ (Map kp vp mn mx sep kvs)
         (concat (sep ++ " ") (map (entry_text kvs) (combine keys vals)))
    then Ok (concat (sep ++ " ") (map (entry_text kvs) (combine keys vals)))
    else Throw (ExcNoMatch
                  (concat (sep ++ " ") (map (entry_text kvs) (combine keys vals)))
                  (Map kp vp mn mx sep kvs)).
Proof.
  intros Hk Hv. unfold map_to_string.
  rewrite (mapM_entries _ _ kp vp kvs t keys vals Hk Hv). cbn [bind].
  rewrite join_concat.
  destruct (match_ _ _); reflexivity.
Qed.



(** ** C4: structure of a map text *)

Lemma count_in_range_iff n mn mx :
  count_in_range n mn mx = true <-> (mn <= N.of_nat n <= mx)%N.
Proof.
  unfold count_in_range.
  rewrite andb_true_iff, negb_true_iff, N.leb_le, N.ltb_ge. reflexivity.
Qed.

Lemma entry_check_iff kp vp kvs entry :
  match split_string_list entry kvs with
  | [key; value] => match_ kp key && match_ vp value
  | _ => false
  end = true
  <-> entry_ok kp vp kvs entry.
Proof.
  unfold entry_ok. split.
  - destruct (split_string_list entry kvs) as [|k [|v [|]]]; try discriminate.
    intros H. apply andb_prop in H as [Hk Hv]. eauto.
  - intros (k & v & -> & Hk & Hv). rewrite Hk, Hv. reflexivity.
Qed.

Lemma Map_match_iff kp vp mn mx sep kvs s :
  match_ (Map kp vp mn mx sep kvs) s = true
  <-> (mn <= N.of_nat (List.length (split_string_list s sep)) <= mx)%N
      /\ Forall (entry_ok kp vp kvs) (split_string_list s sep).
Proof.
  cbn [match_]. rewrite andb_true_iff, count_in_range_iff, forallb_forall, Forall_forall.
  split; intros [Hc He]; (split; [exact Hc|]); intros x Hx;
    apply entry_check_iff, He, Hx.
Qed.

(** C4.  [Map::match] holds exactly when the number of entries is within
    bounds and every entry splits into exactly a key and a value matching
    their patterns.  An entry with another number of parts makes the match
    fail, and [to_value] on such a text throws instead of skipping the
    entry.  [Map(Integer(),Integer())] rejects ["1:2,3"]. *)
Theorem Map_match_structure
  (kp vp : PatternBase) (mn mx : N) (sep kvs s : string) :
  (match_ (Map kp vp mn mx sep kvs) s = true
   <-> (mn <= N.of_nat (List.length (split_string_list s sep)) <= mx)%N
       /\ Forall (entry_ok kp vp kvs) (split_string_list s sep))
  /\ ((exists entry, In entry (split_string_list s sep)
                     /\ List.length (split_string_list entry kvs) <> 2%nat) ->
      match_ (Map kp vp mn mx sep kvs) s = false
      /\ forall K V,
          to_value (TMap K V) s (Map kp vp mn mx sep kvs)
          = Throw (ExcNoMatch s (Map kp vp mn mx sep kvs))
          /\ to_value (TPair K V) s (Map kp vp mn mx sep kvs)
             = Throw (ExcNoMatch s (Map kp vp mn mx sep kvs)))
  /\ match_ (Map_default Integer_default Integer_default) "1:2,3" = false.
Proof.
  split; [apply Map_match_iff|]. split; [|reflexivity].
  intros (entry & Hin & Hlen).
  assert (match_ (Map kp vp mn mx sep kvs) s = false) as Hno.
  { destruct (match_ (Map kp vp mn mx sep kvs) s) eqn:Hm; [|reflexivity].
    apply Map_match_iff in Hm as [_ Hall].
    rewrite Forall_forall in Hall.
    destruct (Hall entry Hin) as (k & v & Hsplit & _).
    rewrite Hsplit in Hlen. contradiction Hlen. reflexivity. }
  split; [exact Hno|]. intros K V.
  split; apply to_value_no_match, Hno.
Qed.

Lemma Map_match_structure_witness :
  match_ (Map (Integer INT_MIN INT_MAX) (Integer INT_MIN INT_MAX) 0 UINT_MAX "," ":")
    "1:2,3" = false
  /\ to_value (TMap TInt TInt) "1:2,3"
       (Map (Integer INT_MIN INT_MAX) (Integer INT_MIN INT_MAX) 0 UINT_MAX "," ":")
     = Throw (ExcNoMatch "1:2,3"
                (Map (Integer INT_MIN INT_MAX) (Integer INT_MIN INT_MAX)
                   0 UINT_MAX "," ":")).
Proof.
  destruct (proj1 (proj2 (Map_match_structure
                            (Integer INT_MIN INT_MAX) (Integer INT_MIN INT_MAX)
                            0 UINT_MAX "," ":" "1:2,3")))
    as [Hno Hthrow].
  - exists "3". split.
    + right. left. reflexivity.
    + discriminate.
  - split; [exact Hno|exact (proj1 (Hthrow TInt TInt))].
Defined.

(** ** C9: the value sub-pattern is not used when reading a map *)

Lemma for_each_app {A B : Type} (body : B -> A -> result B) (l1 l2 : list A) :
  forall acc,
    for_each body (l1 ++ l2)%list acc
    = (r <- for_each body l1 acc ;; for_each body l2 r).
Proof.
  induction l1 as [|x l1 IH]; intros acc; cbn [app for_each bind]; [reflexivity|].
  destruct (body acc x) as [acc'|e]; cbn [bind]; [apply IH|reflexivity].
Qed.

Section MapEntries.

Variables K V : shape.
Variable kp : PatternBase.
Variable kvs : string.
Variable insert : value_of K * value_of V -> list (value_of K * value_of V)
                  -> list (value_of K * value_of V).

(** The body of the loop of [to_value] for a map. *)
Let body (t : list (value_of K * value_of V)) (str : string)
  : result (list (value_of K * value_of V)) :=
  AssertDimension (List.length (split_string_list str kvs)) 2 ;;;
  k <- to_value K (nth 0 (split_string_list str kvs) "") kp ;;
  x <- (p <- to_pattern V ;; to_value V (nth 1 (split_string_list str kvs) "") p) ;;
  Ok (insert (k, x) t).

Lemma entry_read_step tok kv acc :
  entry_read K V kp kvs tok kv -> body acc tok = Ok (insert kv acc).
Proof.
  intros (key & value & Hsplit & Hk & Hx). unfold body. rewrite Hsplit.
  cbn [List.length AssertDimension Nat.eqb AssertThrow bind nth].
  rewrite Hk. cbn [bind]. unfold to_value_default in Hx. rewrite Hx.
  cbn [bind]. destruct kv; reflexivity.
Qed.

Lemma entry_read_inv tok acc r :
  body acc tok = Ok r ->
  exists kv, entry_read K V kp kvs tok kv /\ r = insert kv acc.
Proof.
  unfold body. intros H. apply assert_bind_Ok in H as [Hlen H].
  apply Nat.eqb_eq in Hlen.
  destruct (split_string_list tok kvs) as [|key [|value [|extra l]]] eqn:Hsplit;
    try discriminate.
  cbn [nth] in H.
  apply bind_Ok_inv in H as (k & Hk & H).
  apply bind_Ok_inv in H as (x & Hx & H). injection H as <-.
  exists (k, x). split; [|reflexivity].
  exists key, value. auto.
Qed.

Lemma for_each_entries toks entries :
  Forall2 (entry_read K V kp kvs) toks entries ->
  forall acc,
    for_each body toks acc = Ok (fold_left (fun t e => insert e t) entries acc).
Proof.
  induction 1 as [|tok kv toks entries Hkv _ IH]; intros acc; [reflexivity|].
  cbn [for_each fold_left]. rewrite (entry_read_step _ _ _ Hkv). cbn [bind].
  apply IH.
Qed.

Lemma for_each_entries_inv toks : forall acc r,
  for_each body toks acc = Ok r ->
  exists entries,
    Forall2 (entry_read K V kp kvs) toks entries
    /\ r = fold_left (fun t e => insert e t) entries acc.
Proof.
  induction toks as [|tok toks IH]; intros acc r; cbn [for_each].
  - intros H. injection H as <-. exists []. split; [constructor|reflexivity].
  - intros H. apply bind_Ok_inv in H as (acc1 & H1 & H).
    apply entry_read_inv in H1 as (kv & Hkv & ->).
    destruct (IH _ _ H) as (entries & Hall & ->).
    exists (kv :: entries). split; [constructor; assumption|reflexivity].
Qed.

(** The first entry that cannot be read ends the loop, the key being
    tried before the value. *)
Lemma for_each_entries_throw before tok after entries key value e :
  Forall2 (entry_read K V kp kvs) before entries ->
  split_string_list tok kvs = [key; value] ->
  to_value K key kp = Throw e
  \/ (exists k, to_value K key kp = Ok k) /\ to_value_default V value = Throw e ->
  forall acc, for_each body (before ++ tok :: after)%list acc = Throw e.
Proof.
  intros Hbefore Hsplit Hfail acc.
  rewrite for_each_app, (for_each_entries _ _ Hbefore). cbn [bind for_each].
  unfold body at 1. rewrite Hsplit.
  cbn [List.length AssertDimension Nat.eqb AssertThrow bind nth].
  destruct Hfail as [Hk|[(k & Hk) Hx]]; rewrite Hk; cbn [bind]; [reflexivity|].
  unfold to_value_default in Hx. rewrite Hx. reflexivity.
Qed.

End MapEntries.



(** ** Splitting joined text *)

Section SplitChar.

Variable c : ascii.

Lemma split_on_char_cons a s :
  split_on (String c "") 0 (String a s)
  = if Ascii.eqb c a then "" :: split_on (String c "") 0 s
    else match split_on (String c "") 0 s with
         | tok :: rest => String a tok :: rest
         | [] => [String a ""]
         end.
Proof.
  cbn [split_on prefix String.length Nat.sub].
  destruct (ascii_dec c a) as [->|Hne].
  - rewrite Ascii.eqb_refl. destruct s; reflexivity.
  - apply Ascii.eqb_neq in Hne. rewrite Hne. reflexivity.
Qed.

Lemma free_of_cons a s :
  free_of c (String a s) = negb (Ascii.eqb a c) && free_of c s.
Proof. reflexivity. Qed.

Lemma free_of_app a b : free_of c (a ++ b) = free_of c a && free_of c b.
Proof. apply all_app. Qed.

Lemma split_on_free r :
  free_of c r = true -> split_on (String c "") 0 r = [r].
Proof.
  induction r as [|a r IH]; [reflexivity|].
  rewrite free_of_cons. intros H. apply andb_prop in H as [Ha Hr].
  rewrite split_on_char_cons, (IH Hr).
  apply negb_true_iff in Ha. rewrite Ascii.eqb_sym, Ha. reflexivity.
Qed.

Lemma split_on_app r rest :
  free_of c r = true ->
  split_on (String c "") 0 (r ++ String c rest) = r :: split_on (String c "") 0 rest.
Proof.
  induction r as [|a r IH].
  - intros _. cbn [append]. rewrite split_on_char_cons, Ascii.eqb_refl. reflexivity.
  - rewrite free_of_cons. intros H. apply andb_prop in H as [Ha Hr].
    cbn [append]. rewrite split_on_char_cons, (IH Hr).
    apply negb_true_iff in Ha. rewrite Ascii.eqb_sym, Ha. reflexivity.
Qed.

Hypothesis c_not_space : is_space c = false.

Lemma free_of_space : free_of c " " = true.
Proof.
  unfold free_of. cbn [Str.all]. rewrite andb_true_r.
  apply negb_true_iff, Ascii.eqb_neq. intros <-. discriminate.
Qed.

Lemma split_on_joined rs : forall pre,
  rs <> [] -> free_of c pre = true -> Forall (fun r => free_of c r = true) rs ->
  split_on (String c "") 0 (pre ++ concat (String c " ") rs)
  = (pre ++ hd "" rs) :: map (append " ") (tl rs).
Proof.
  induction rs as [|r rs IH]; intros pre Hne Hpre Hall; [contradiction|].
  inversion Hall as [|? ? Hr Hrs]; subst.
  destruct rs as [|r2 rs].
  - cbn [concat hd tl map]. apply split_on_free.
    rewrite free_of_app, Hpre, Hr. reflexivity.
  - change (concat (String c " ") (r :: r2 :: rs))
      with (r ++ String c (" " ++ concat (String c " ") (r2 :: rs))).
    rewrite <- append_assoc, split_on_app
      by (rewrite free_of_app, Hpre, Hr; reflexivity).
    rewrite (IH " " ltac:(discriminate) free_of_space Hrs).
    reflexivity.
Qed.

End SplitChar.

(** ** Separator characters and ranks *)

Lemma list_separator_char i sep :
  at_index default_list_separator i = Ok sep ->
  exists c, sep = String c ""
            /\ is_space c = false
            /\ forall lr mr, allowed lr mr c = (i <? lr)%nat.
Proof.
  unfold at_index.
  destruct i as [|[|[|[|[|i]]]]]; simpl;
    intros H; try discriminate; injection H as <-;
    eexists; (split; [reflexivity|]); split; reflexivity.
Qed.

Lemma map_separator_char j sep :
  at_index default_map_separator j = Ok sep ->
  exists d, sep = String d ""
            /\ is_space d = false
            /\ forall lr mr, allowed lr mr d = (j <? mr)%nat.
Proof.
  unfold at_index.
  destruct j as [|[|[|[|[|j]]]]]; simpl;
    intros H; try discriminate; injection H as <-;
    eexists; (split; [reflexivity|]); split; reflexivity.
Qed.

Lemma allowed_space lr mr : allowed lr mr " " = true.
Proof. reflexivity. Qed.

Lemma allowed_mono lr mr lr' mr' ch :
  (lr <= lr')%nat -> (mr <= mr')%nat ->
  allowed lr mr ch = true -> allowed lr' mr' ch = true.
Proof.
  unfold allowed. intros Hl Hm.
  destruct (index_of ch default_list_separator) as [i|].
  - rewrite !Nat.ltb_lt. lia.
  - destruct (index_of ch default_map_separator) as [j|]; [|reflexivity].
    rewrite !Nat.ltb_lt. lia.
Qed.

Lemma allowed_digit_or_minus ch :
  is_digit ch = true \/ ch = "-"%char -> allowed 0 0 ch = true.
Proof.
  intros [H| ->]; [|reflexivity].
  revert H. ascii_cases ch; vm_compute; congruence.
Qed.

Lemma all_allowed_free lr mr ch s :
  allowed lr mr ch = false -> Str.all (allowed lr mr) s = true -> free_of ch s = true.
Proof.
  intros Hch. unfold free_of. apply all_impl.
  intros d Hd. apply negb_true_iff, Ascii.eqb_neq. intros ->. congruence.
Qed.

(** The text of a number is clean at both ends and holds no separator. *)
Lemma to_string_token v :
  starts_clean (Dec.to_string v) = true /\ ends_clean (Dec.to_string v) = true
  /\ Str.all (allowed 0 0) (Dec.to_string v) = true.
Proof.
  unfold Dec.to_string.
  destruct (decimal_spec (Z.abs v) (Z.abs_nonneg v)) as (Hall & Hne & _).
  assert (forall ds, Str.all is_digit ds = true -> is_empty ds = false ->
                     starts_clean ds = true /\ ends_clean ds = true
                     /\ Str.all (allowed 0 0) ds = true) as Hdigits.
  { intros ds Hd Hn. repeat split.
    - destruct ds as [|ch ds]; [discriminate|].
      cbn [Str.all] in Hd. apply andb_prop in Hd as [Hch _].
      cbn [starts_clean]. rewrite (digit_not_space _ Hch). reflexivity.
    - induction ds as [|ch ds IH]; [discriminate|].
      cbn [Str.all] in Hd. apply andb_prop in Hd as [Hch Hds].
      destruct ds as [|ch2 ds].
      + cbn [ends_clean]. rewrite (digit_not_space _ Hch). reflexivity.
      + apply IH; [assumption|reflexivity].
    - revert Hd. apply all_impl. intros ch Hch.
      apply allowed_digit_or_minus. left. exact Hch. }
  destruct (Hdigits _ Hall Hne) as (Hs & He & Ha).
  destruct (v <? 0); [|repeat split; assumption].
  repeat split.
  - destruct (decimal (Z.abs v)); [discriminate|exact He].
  - cbn [Str.all]. rewrite Ha. reflexivity.
Qed.

(** ** Results of loops *)

Lemma for_each_steps {A B : Type} (body : B -> string -> result B)
  (step : B -> A -> B) (toks : list string) (xs : list A) :
  Forall2 (fun x tok => forall acc, body acc tok = Ok (step acc x)) xs toks ->
  forall acc, for_each body toks acc = Ok (fold_left step xs acc).
Proof.
  induction 1 as [|x tok xs toks Hx _ IH]; intros acc; [reflexivity|].
  cbn [for_each fold_left]. rewrite Hx. cbn [bind]. apply IH.
Qed.

Lemma fold_left_snoc {A : Type} (xs : list A) : forall acc,
  fold_left (fun t x => (t ++ [x])%list) xs acc = (acc ++ xs)%list.
Proof.
  induction xs as [|x xs IH]; intros acc; cbn [fold_left].
  - rewrite app_nil_r. reflexivity.
  - rewrite IH, <- app_assoc. reflexivity.
Qed.

(** ** Insertion in key order *)

Lemma map_insert_last {K V : Type} (lt : K -> K -> bool) (e : K * V) m :
  forallb (fun e' => lt (fst e') (fst e) && negb (lt (fst e) (fst e'))) m = true ->
  map_insert lt e m = (m ++ [e])%list.
Proof.
  induction m as [|e' m IH]; cbn [forallb map_insert app]; [reflexivity|].
  intros H. apply andb_prop in H as [H1 H2]. apply andb_prop in H1 as [Hlt Hnlt].
  apply negb_true_iff in Hnlt. rewrite Hnlt, Hlt, (IH H2). reflexivity.
Qed.

Lemma strictly_increasing_before {A : Type} (lt : A -> A -> bool) a x b :
  strictly_increasing lt (a ++ x :: b)%list = true ->
  forallb (fun y => lt y x && negb (lt x y)) a = true.
Proof.
  induction a as [|y a IH]; cbn [app strictly_increasing forallb]; [reflexivity|].
  intros H. apply andb_prop in H as [Hy Ha].
  rewrite forallb_app in Hy. apply andb_prop in Hy as [_ Hy].
  cbn [forallb] in Hy. apply andb_prop in Hy as [Hyx _].
  rewrite Hyx, (IH Ha). reflexivity.
Qed.

(** Inserting the entries of a key-sorted list one after the other
    rebuilds the list. *)
Lemma fold_map_insert {K V : Type} (lt : K -> K -> bool) (l : list (K * V)) :
  forall acc,
    strictly_increasing lt (map fst (acc ++ l)%list) = true ->
    fold_left (fun t e => map_insert lt e t) l acc = (acc ++ l)%list.
Proof.
  induction l as [|e l IH]; intros acc Hs; cbn [fold_left].
  - rewrite app_nil_r. reflexivity.
  - rewrite map_insert_last.
    + rewrite IH; rewrite <- app_assoc; [reflexivity|exact Hs].
    + rewrite map_app in Hs. cbn [map] in Hs.
      apply strictly_increasing_before in Hs.
      rewrite forallb_forall in Hs. apply forallb_forall.
      intros e' He'. apply Hs, in_map, He'.
Qed.

(** ** What [to_string] returns matches the pattern *)

Lemma to_string_match T (v : value_of T) p s :
  to_string T v p = Ok s -> match_ p s = true.
Proof.
  destruct T; cbn [to_string];
    unfold list_to_string, map_to_string, complex_to_string; intros H.
  - apply assert_bind_Ok in H as [Hm H]. injection H as <-. exact Hm.
  - apply assert_bind_Ok in H as [Hm H]. injection H as <-. exact Hm.
  - apply assert_bind_Ok in H as [Hm H]. injection H as <-. exact Hm.
  - destruct p; try discriminate.
    apply bind_Ok_inv in H as (vec & _ & H).
    apply assert_bind_Ok in H as [Hm H]. injection H as <-. exact Hm.
  - destruct p; try discriminate.
    apply bind_Ok_inv in H as (vec & _ & H).
    apply assert_bind_Ok in H as [Hm H]. injection H as <-. exact Hm.
  - destruct p; try discriminate.
    apply bind_Ok_inv in H as (re & _ & H).
    apply bind_Ok_inv in H as (im & _ & H).
    apply assert_bind_Ok in H as [Hm H]. injection H as <-. exact Hm.
  - apply bind_Ok_inv in H as (s' & _ & H).
    apply assert_bind_Ok in H as [Hm H]. injection H as <-. exact Hm.
  - apply assert_bind_Ok in H as [Hm H]. injection H as <-. exact Hm.
  - destruct p; try discriminate.
    apply bind_Ok_inv in H as (vec & _ & H).
    apply assert_bind_Ok in H as [Hm H]. injection H as <-. exact Hm.
Qed.

Lemma mapM_of_Forall2 {A B : Type} (f : A -> result B) l ys :
  Forall2 (fun x y => f x = Ok y) l ys -> mapM f l = Ok ys.
Proof.
  induction 1 as [|x y l ys Hx _ IH]; [reflexivity|].
  cbn [mapM]. rewrite Hx, IH. reflexivity.
Qed.

Lemma Forall2_right {A B : Type} (P : A -> B -> Prop) (Q : B -> Prop) l ys :
  (forall x y, P x y -> Q y) -> Forall2 P l ys -> Forall Q ys.
Proof. intros HPQ. induction 1; constructor; eauto. Qed.

(** ** The derived patterns, by shape *)

Lemma to_pattern_complex_inv N p :
  to_pattern (TComplex N) = Ok p ->
  exists base sep,
    to_pattern N = Ok base
    /\ at_index default_list_separator (list_rank N) = Ok sep
    /\ p = List base 2 2 sep.
Proof.
  simpl. rewrite Nat.add_sub. intros H.
  apply bind_Ok_inv in H as (base & Hb & H).
  apply bind_Ok_inv in H as (sep & Hs & H).
  injection H as <-. eauto.
Qed.

Lemma to_pattern_map_inv K V p :
  to_pattern (TMap K V) = Ok p ->
  exists kp vp sep kvs,
    to_pattern K = Ok kp /\ to_pattern V = Ok vp
    /\ at_index default_list_separator (Nat.max (list_rank K) (list_rank V)) = Ok sep
    /\ at_index default_map_separator (Nat.max (map_rank K) (map_rank V)) = Ok kvs
    /\ p = Map kp vp 0 UINT_MAX sep kvs.
Proof.
  simpl. rewrite !Nat.add_sub. intros H.
  apply bind_Ok_inv in H as (kp & Hk & H).
  apply bind_Ok_inv in H as (vp & Hv & H).
  apply bind_Ok_inv in H as (sep & Hs & H).
  apply bind_Ok_inv in H as (kvs & Hkv & H).
  injection H as <-. exists kp, vp, sep, kvs. auto.
Qed.

Lemma to_pattern_pair_inv K V p :
  to_pattern (TPair K V) = Ok p ->
  exists kp vp sep kvs,
    to_pattern K = Ok kp /\ to_pattern V = Ok vp
    /\ at_index default_list_separator (Nat.max (list_rank K) (list_rank V)) = Ok sep
    /\ at_index default_map_separator (Nat.max (map_rank K) (map_rank V)) = Ok kvs
    /\ p = Map kp vp 1 1 sep kvs.
Proof.
  simpl. rewrite !Nat.add_sub. intros H.
  apply bind_Ok_inv in H as (kp & Hk & H).
  apply bind_Ok_inv in H as (vp & Hv & H).
  apply bind_Ok_inv in H as (sep & Hs & H).
  apply bind_Ok_inv in H as (kvs & Hkv & H).
  injection H as <-. exists kp, vp, sep, kvs. auto.
Qed.

Lemma Forall_exists_Forall2 {A B : Type} (P : A -> B -> Prop) l :
  Forall (fun x => exists y, P x y) l -> exists ys, Forall2 P l ys.
Proof.
  induction 1 as [|x l (y & Hy) _ (ys & Hys)].
  - exists []. constructor.
  - exists (y :: ys). constructor; assumption.
Qed.

(** ** Trimming *)

Lemma starts_ok_ltrim s : starts_ok s = true -> ltrim s = s.
Proof.
  destruct s as [|c s]; [reflexivity|]. cbn [starts_ok ltrim].
  intros H. apply negb_true_iff in H. rewrite H. reflexivity.
Qed.

Lemma starts_clean_ok s : starts_clean s = true -> starts_ok s = true.
Proof. destruct s; [discriminate|trivial]. Qed.

Lemma ltrim_length s : (String.length (ltrim s) <= String.length s)%nat.
Proof.
  induction s as [|c s IH]; cbn [ltrim String.length]; [lia|].
  destruct (is_space c); cbn [String.length]; lia.
Qed.

Lemma rtrim_length s : (String.length (rtrim s) <= String.length s)%nat.
Proof.
  induction s as [|c s IH]; cbn [rtrim String.length]; [lia|].
  destruct (rtrim s); [destruct (is_space c)|]; cbn [String.length] in *; lia.
Qed.

(** A string that trimming leaves alone does not start with white
    space. *)
Lemma unpadded_starts_ok s : trim s = s -> starts_ok s = true.
Proof.
  destruct s as [|c s]; [reflexivity|]. cbn [starts_ok].
  destruct (is_space c) eqn:E; [|reflexivity].
  unfold trim. cbn [ltrim]. rewrite E. intros H. exfalso.
  pose proof (rtrim_length (ltrim s)) as H1. pose proof (ltrim_length s) as H2.
  rewrite H in H1. cbn [String.length] in H1. lia.
Qed.

Lemma rtrim_cons_nonspace a s :
  is_space a = false -> rtrim (String a s) = String a (rtrim s).
Proof. intros H. cbn [rtrim]. destruct (rtrim s); rewrite ?H; reflexivity. Qed.

Lemma rtrim_cons_nonempty a s :
  is_empty (rtrim s) = false -> rtrim (String a s) = String a (rtrim s).
Proof. cbn [rtrim]. destruct (rtrim s); [discriminate|reflexivity]. Qed.

Lemma rtrim_cons_empty a s :
  rtrim s = "" ->
  rtrim (String a s) = if is_space a then "" else String a "".
Proof. intros H. cbn [rtrim]. rewrite H. reflexivity. Qed.

Lemma rtrim_idempotent s : rtrim (rtrim s) = rtrim s.
Proof.
  induction s as [|a s IH]; [reflexivity|].
  destruct (rtrim s) as [|b r] eqn:E.
  - rewrite (rtrim_cons_empty _ _ E).
    destruct (is_space a) eqn:Ea; [reflexivity|].
    cbn [rtrim]. rewrite Ea. reflexivity.
  - rewrite (rtrim_cons_nonempty a s) by (rewrite E; reflexivity).
    rewrite E. rewrite rtrim_cons_nonempty by (rewrite IH; reflexivity).
    rewrite IH. reflexivity.
Qed.

Lemma ltrim_rtrim s : ltrim (rtrim s) = rtrim (ltrim s).
Proof.
  induction s as [|a s IH]; [reflexivity|].
  destruct (is_space a) eqn:Ea.
  - cbn [ltrim]. rewrite Ea, <- IH.
    destruct (rtrim s) as [|b r] eqn:E.
    + rewrite (rtrim_cons_empty _ _ E), Ea. reflexivity.
    + rewrite (rtrim_cons_nonempty a s) by (rewrite E; reflexivity).
      rewrite E. cbn [ltrim]. rewrite Ea. reflexivity.
  - rewrite (rtrim_cons_nonspace _ _ Ea). cbn [ltrim]. rewrite Ea.
    rewrite (rtrim_cons_nonspace _ _ Ea). reflexivity.
Qed.

Lemma trim_rtrim s : trim (rtrim s) = trim s.
Proof. unfold trim. rewrite ltrim_rtrim. apply rtrim_idempotent. Qed.

Lemma trim_space s : trim (String " " s) = trim s.
Proof. reflexivity. Qed.

(** ** Splitting and trimming *)

Section SplitTrim.

Variable c : ascii.
Hypothesis c_not_space : is_space c = false.

Lemma split_on_empty : split_on (String c "") 0 "" = [""].
Proof. reflexivity. Qed.

(** Trimming the text on the right only shortens the last piece. *)
Lemma split_on_rtrim s :
  exists front last,
    split_on (String c "") 0 s = (front ++ [last])%list
    /\ split_on (String c "") 0 (rtrim s) = (front ++ [rtrim last])%list
    /\ (front = [] -> last = s).
Proof.
  induction s as [|a s (front & last & Hs & Hr & Hone)].
  - exists [], "". repeat split.
  - rewrite split_on_char_cons, Hs.
    destruct (rtrim s) as [|b r] eqn:E.
    + (* nothing but white space follows *)
      rewrite split_on_empty in Hr.
      destruct front as [|f front];
        [|destruct front; cbn [app] in Hr; discriminate Hr].
      specialize (Hone eq_refl). subst last. cbn [app].
      rewrite (rtrim_cons_empty _ _ E).
      destruct (Ascii.eqb c a) eqn:Eca.
      * apply Ascii.eqb_eq in Eca. subst a. rewrite c_not_space.
        exists [""], s. rewrite E. split; [reflexivity|]. split.
        -- rewrite split_on_char_cons, Ascii.eqb_refl. reflexivity.
        -- intros H; discriminate H.
      * exists [], (String a s). cbn [app].
        rewrite (rtrim_cons_empty _ _ E).
        split; [reflexivity|]. split; [|reflexivity].
        destruct (is_space a); [reflexivity|].
        rewrite split_on_char_cons, Eca. reflexivity.
    + rewrite (rtrim_cons_nonempty a s) by (rewrite E; reflexivity).
      rewrite split_on_char_cons, E, Hr.
      destruct (Ascii.eqb c a) eqn:Eca.
      * exists ("" :: front), last. repeat split. intros H; discriminate H.
      * destruct front as [|f front].
        -- exists [], (String a last). cbn [app].
           rewrite (Hone eq_refl) in *.
           rewrite (rtrim_cons_nonempty a s) by (rewrite E; reflexivity).
           rewrite E. repeat split.
        -- exists (String a f :: front), last. repeat split. intros H; discriminate H.
Qed.

(** A text that does not start with white space splits into the same
    tokens before and after trimming. *)
Lemma split_string_list_trim s :
  starts_ok s = true ->
  split_string_list (trim s) (String c "") = split_string_list s (String c "").
Proof.
  intros Hs. unfold trim. rewrite (starts_ok_ltrim _ Hs).
  destruct s as [|a s]; [reflexivity|].
  cbn [starts_ok] in Hs. apply negb_true_iff in Hs.
  unfold split_string_list. rewrite (rtrim_cons_nonspace _ _ Hs).
  cbn [is_empty]. rewrite <- (rtrim_cons_nonspace _ _ Hs).
  destruct (split_on_rtrim (String a s)) as (front & last & -> & -> & _).
  rewrite !map_app. cbn [map]. rewrite trim_rtrim. reflexivity.
Qed.

(** The pieces of a joined text, up to trimming. *)
Lemma split_string_list_concat rs :
  Forall (fun r => free_of c r = true) rs ->
  (rs <> [] -> is_empty (concat (String c " ") rs) = false) ->
  split_string_list (concat (String c " ") rs) (String c "") = map trim rs.
Proof.
  intros Hall Hne. destruct rs as [|r rs]; [reflexivity|].
  unfold split_string_list. rewrite Hne by discriminate.
  change (concat (String c " ") (r :: rs))
    with ("" ++ concat (String c " ") (r :: rs)).
  rewrite (split_on_joined c c_not_space (r :: rs) "");
    [|discriminate|reflexivity|exact Hall].
  cbn [hd tl map append]. f_equal. rewrite map_map.
  apply map_ext. intros x. apply trim_space.
Qed.

(** The two parts of a map entry, up to trimming. *)
Lemma split_string_list_entry k v :
  free_of c k = true -> free_of c v = true ->
  split_string_list ((k ++ String c "") ++ v) (String c "") = [trim k; trim v].
Proof.
  intros Hk Hv. unfold split_string_list.
  replace (is_empty ((k ++ String c "") ++ v)) with false
    by (destruct k; reflexivity).
  rewrite append_assoc. cbn [append].
  rewrite (split_on_app c _ _ Hk), (split_on_free c _ Hv). reflexivity.
Qed.

End SplitTrim.

(** ** Texts free of the enclosing separators *)

Lemma free_of_all_cons c F s :
  free_of_all (c :: F) s = free_of c s && free_of_all F s.
Proof. reflexivity. Qed.

Lemma free_of_all_app F a b :
  free_of_all F a = true -> free_of_all F b = true ->
  free_of_all F (a ++ b) = true.
Proof.
  unfold free_of_all. rewrite !forallb_forall. intros Ha Hb ch Hch.
  rewrite free_of_app, (Ha ch Hch), (Hb ch Hch). reflexivity.
Qed.

Lemma free_of_all_concat F sep rs :
  free_of_all F sep = true -> Forall (fun r => free_of_all F r = true) rs ->
  free_of_all F (concat sep rs) = true.
Proof.
  intros Hsep Hall. induction Hall as [|r rs Hr Hrs IH].
  - unfold free_of_all. apply forallb_forall. reflexivity.
  - destruct rs as [|r2 rs]; [exact Hr|].
    change (concat sep (r :: r2 :: rs)) with (r ++ sep ++ concat sep (r2 :: rs)).
    apply free_of_all_app; [exact Hr|]. apply free_of_all_app; assumption.
Qed.

Lemma all_allowed_free_all lr mr F s :
  Forall (fun ch => allowed lr mr ch = false) F ->
  Str.all (allowed lr mr) s = true -> free_of_all F s = true.
Proof.
  intros HF Hs. unfold free_of_all. apply forallb_forall. intros ch Hch.
  rewrite Forall_forall in HF.
  exact (all_allowed_free lr mr ch s (HF ch Hch) Hs).
Qed.

Lemma separator_chars_at table i c :
  at_index table i = Ok (String c "") -> separator_chars table i = [c].
Proof.
  unfold at_index, separator_chars.
  destruct (nth_error table i); intros H; [|discriminate].
  injection H as ->. reflexivity.
Qed.

Lemma starts_ok_app a b :
  starts_ok a = true -> starts_ok b = true -> starts_ok (a ++ b) = true.
Proof. destruct a; trivial. Qed.

Lemma starts_ok_app_nonempty a b :
  is_empty a = false -> starts_ok a = true -> starts_ok (a ++ b) = true.
Proof. destruct a; [discriminate|trivial]. Qed.

Lemma starts_ok_nonspace c s : is_space c = false -> starts_ok (String c s) = true.
Proof. intros H. cbn [starts_ok]. rewrite H. reflexivity. Qed.

(** The text obtained by joining pieces that are free of the separator:
    it splits into the trimmed pieces, also after trimming. *)
Lemma joined_text c F rs :
  is_space c = false -> free_of_all F (String c " ") = true ->
  Forall (fun r => starts_ok r = true /\ free_of_all (c :: F) r = true) rs ->
  (forall r, rs = [r] -> is_empty r = false) ->
  starts_ok (concat (String c " ") rs) = true
  /\ free_of_all F (concat (String c " ") rs) = true
  /\ (rs <> [] -> is_empty (concat (String c " ") rs) = false)
  /\ split_string_list (concat (String c " ") rs) (String c "") = map trim rs
  /\ split_string_list (trim (concat (String c " ") rs)) (String c "")
     = map trim rs.
Proof.
  intros Hsp Hsep Hall Hone.
  assert (starts_ok (concat (String c " ") rs) = true) as Hstart.
  { destruct rs as [|r [|r2 rs]]; [reflexivity| |].
    - inversion Hall as [|? ? [Hr _] _]. exact Hr.
    - inversion Hall as [|? ? [Hr _] _].
      change (concat (String c " ") (r :: r2 :: rs))
        with (r ++ String c (" " ++ concat (String c " ") (r2 :: rs))).
      apply starts_ok_app; [exact Hr|apply starts_ok_nonspace, Hsp]. }
  assert (rs <> [] -> is_empty (concat (String c " ") rs) = false) as Hne.
  { destruct rs as [|r [|r2 rs]]; [contradiction| |]; intros _.
    - apply Hone. reflexivity.
    - cbn [concat]. destruct r; reflexivity. }
  assert (split_string_list (concat (String c " ") rs) (String c "") = map trim rs)
    as Hsplit.
  { apply split_string_list_concat; [exact Hsp| |exact Hne].
    eapply Forall_impl; [|exact Hall]. intros r [_ Hr].
    rewrite free_of_all_cons in Hr. apply andb_prop in Hr as [Hr _]. exact Hr. }
  repeat split; try assumption.
  - apply free_of_all_concat; [exact Hsep|].
    eapply Forall_impl; [|exact Hall]. intros r [_ Hr].
    rewrite free_of_all_cons in Hr. apply andb_prop in Hr as [_ Hr]. exact Hr.
  - rewrite (split_string_list_trim c Hsp _ Hstart). exact Hsplit.
Qed.

(** The text of a map entry: it splits into the trimmed key and value
    texts, also after trimming. *)
Lemma entry_text_facts c d F k v :
  is_space d = false -> free_of_all (c :: F) (String d "") = true ->
  starts_ok k = true ->
  free_of_all (c :: d :: F) k = true -> free_of_all (c :: d :: F) v = true ->
  starts_ok ((k ++ String d "") ++ v) = true
  /\ is_empty ((k ++ String d "") ++ v) = false
  /\ free_of_all (c :: F) ((k ++ String d "") ++ v) = true
  /\ split_string_list ((k ++ String d "") ++ v) (String d "") = [trim k; trim v]
  /\ split_string_list (trim ((k ++ String d "") ++ v)) (String d "")
     = [trim k; trim v].
Proof.
  intros Hsp Hd Hk Hfk Hfv.
  rewrite !free_of_all_cons in Hfk, Hfv.
  apply andb_prop in Hfk as [Hck Hfk]. apply andb_prop in Hfk as [Hdk HFk].
  apply andb_prop in Hfv as [Hcv Hfv]. apply andb_prop in Hfv as [Hdv HFv].
  rewrite free_of_all_cons in Hd. apply andb_prop in Hd as [Hcd HFd].
  assert (is_empty (k ++ String d "") = false) as Hne
      by (destruct k; reflexivity).
  assert (starts_ok ((k ++ String d "") ++ v) = true) as Hstart.
  { apply starts_ok_app_nonempty; [exact Hne|].
    apply starts_ok_app; [exact Hk|apply starts_ok_nonspace, Hsp]. }
  assert (split_string_list ((k ++ String d "") ++ v) (String d "")
          = [trim k; trim v]) as Hsplit
      by (apply split_string_list_entry; assumption).
  repeat split; try assumption.
  - apply is_empty_app, Hne.
  - rewrite free_of_all_cons. apply andb_true_intro. split.
    + rewrite !free_of_app, Hck, Hcd, Hcv. reflexivity.
    + apply free_of_all_app; [apply free_of_all_app|]; assumption.
  - rewrite (split_string_list_trim d Hsp _ Hstart). exact Hsplit.
Qed.

(** ** Insertion in an ordered container *)

Lemma set_insert_last {A : Type} (lt : A -> A -> bool) x m :
  forallb (fun y => lt y x && negb (lt x y)) m = true ->
  set_insert lt x m = (m ++ [x])%list.
Proof.
  induction m as [|y m IH]; cbn [forallb set_insert app]; [reflexivity|].
  intros H. apply andb_prop in H as [H1 H2]. apply andb_prop in H1 as [Hlt Hnlt].
  apply negb_true_iff in Hnlt. rewrite Hnlt, Hlt, (IH H2). reflexivity.
Qed.

Lemma multiset_insert_last {A : Type} (lt : A -> A -> bool) x m :
  forallb (fun y => negb (lt x y)) m = true ->
  multiset_insert lt x m = (m ++ [x])%list.
Proof.
  induction m as [|y m IH]; cbn [forallb multiset_insert app]; [reflexivity|].
  intros H. apply andb_prop in H as [Hnlt H2].
  apply negb_true_iff in Hnlt. rewrite Hnlt, (IH H2). reflexivity.
Qed.

Lemma nondecreasing_before {A : Type} (lt : A -> A -> bool) a x b :
  nondecreasing lt (a ++ x :: b)%list = true ->
  forallb (fun y => negb (lt x y)) a = true.
Proof.
  induction a as [|y a IH]; cbn [app nondecreasing forallb]; [reflexivity|].
  intros H. apply andb_prop in H as [Hy Ha].
  rewrite forallb_app in Hy. apply andb_prop in Hy as [_ Hy].
  cbn [forallb] in Hy. apply andb_prop in Hy as [Hyx _].
  rewrite Hyx, (IH Ha). reflexivity.
Qed.

(** Inserting the elements of an ordered container one after the other,
    in the order of the container, rebuilds it. *)
Lemma fold_insert_at_end k {A : Type} (lt : A -> A -> bool) (l : list A) :
  ordered k lt l = true ->
  fold_left (fun t x => insert_at_end k lt x t) l [] = l.
Proof.
  intros H.
  enough (forall acc, ordered k lt (acc ++ l)%list = true ->
            fold_left (fun t x => insert_at_end k lt x t) l acc = (acc ++ l)%list)
    as Hgen by (apply (Hgen []); exact H).
  clear H. induction l as [|x l IH]; intros acc Hs; cbn [fold_left].
  - rewrite app_nil_r. reflexivity.
  - replace (insert_at_end k lt x acc) with (acc ++ [x])%list.
    + rewrite IH; rewrite <- app_assoc; [reflexivity|exact Hs].
    + symmetry. destruct k; cbn [insert_at_end ordered] in *.
      * apply set_insert_last. exact (strictly_increasing_before _ _ _ _ Hs).
      * apply multiset_insert_last. exact (nondecreasing_before _ _ _ _ Hs).
Qed.

(** ** Reading the tokens of a text *)

Lemma Forall2_flip {A B : Type} (P : A -> B -> Prop) l l' :
  Forall2 P l l' -> Forall2 (fun y x => P x y) l' l.
Proof. induction 1; constructor; assumption. Qed.

Lemma Forall2_map_r {A B C : Type} (P : A -> C -> Prop) (f : B -> C) l l' :
  Forall2 (fun x y => P x (f y)) l l' -> Forall2 P l (map f l').
Proof. induction 1; constructor; assumption. Qed.

Section Tokens.

Variable E : shape.
Variable base : PatternBase.
Variables mn mx : N.
Variable sep : string.
Variable s : string.
Variable xs : list (value_of E).
Variable toks : list string.

Hypothesis tokens : split_string_list s sep = toks.
Hypothesis count : (mn <= N.of_nat (List.length xs) <= mx)%N.
Hypothesis elements :
  Forall2 (fun x tok => match_ base tok = true /\ to_value E tok base = Ok x)
    xs toks.

Lemma tokens_match : match_ (List base mn mx sep) s = true.
Proof.
  cbn [match_]. rewrite tokens. apply andb_true_intro. split.
  - apply count_in_range_iff. rewrite <- (Forall2_length elements). exact count.
  - apply forallb_forall. apply Forall_forall.
    exact (Forall2_right _ _ _ _ (fun x y H => proj1 H) elements).
Qed.

Lemma tokens_loop (insert : value_of E -> list (value_of E) -> list (value_of E)) :
  for_each (fun t str => x <- to_value E str base ;; Ok (insert x t)) toks []
  = Ok (fold_left (fun t x => insert x t) xs []).
Proof.
  apply (for_each_steps _ (fun t x => insert x t)).
  eapply Forall2_impl; [|exact elements].
  intros x tok [_ Hx] acc. rewrite Hx. reflexivity.
Qed.

Lemma vector_reads : to_value (TVector E) s (List base mn mx sep) = Ok xs.
Proof.
  cbn [to_value]. unfold list_to_value.
  rewrite (assert_true_bind _ _ _ tokens_match), tokens.
  rewrite (for_each_steps _ (fun t x => (t ++ [x])%list) toks xs).
  - rewrite fold_left_snoc. reflexivity.
  - eapply Forall2_impl; [|exact elements].
    intros x tok [_ Hx] acc. rewrite Hx. reflexivity.
Qed.

Lemma set_reads k :
  ordered k (less E) xs = true ->
  to_value (TSet k E) s (List base mn mx sep) = Ok xs.
Proof.
  intros Ho. cbn [to_value]. unfold set_to_value.
  rewrite (assert_true_bind _ _ _ tokens_match), tokens, tokens_loop.
  rewrite (fold_insert_at_end k _ _ Ho). reflexivity.
Qed.

End Tokens.

(** ** The text of a nested value, shape by shape *)

Lemma text_of_token F E base (x : value_of E) r :
  text_of F E base x r ->
  match_ base (trim r) = true /\ to_value E (trim r) base = Ok x.
Proof. intros (_ & _ & Hv & Hm & _). auto. Qed.

Lemma text_of_piece c F E base (x : value_of E) r :
  text_of (c :: F) E base x r ->
  starts_ok r = true /\ free_of_all (c :: F) r = true.
Proof. intros (_ & _ & _ & _ & Hs & Hf & _). auto. Qed.

(** *** Sequence and ordered containers *)

Section Sequence.

Variable E : shape.
Variable base : PatternBase.
Variable c : ascii.
Variable F : list ascii.
Variable t : list (value_of E).
Variable rs : list string.

Hypothesis c_not_space : is_space c = false.
Hypothesis c_free : free_of_all F (String c " ") = true.
Hypothesis t_fits : fits t = true.
Hypothesis t_not_blank : lone_blank E t = false.
Hypothesis texts : Forall2 (text_of (c :: F) E base) t rs.

Let s := concat (String c " ") rs.
Let p := List base 0 UINT_MAX (String c "").

Lemma sequence_joined :
  starts_ok s = true
  /\ free_of_all F s = true
  /\ (rs <> [] -> is_empty s = false)
  /\ split_string_list s (String c "") = map trim rs
  /\ split_string_list (trim s) (String c "") = map trim rs.
Proof.
  apply joined_text; [exact c_not_space|exact c_free| |].
  - exact (Forall2_right _ _ _ _ (text_of_piece c F E base) texts).
  - intros r ->. inversion texts as [|x ? t' ? Hx Ht']; subst.
    inversion Ht'; subst. cbn [lone_blank] in t_not_blank.
    destruct Hx as (_ & _ & _ & _ & _ & _ & Hb). apply Hb, t_not_blank.
Qed.

Lemma sequence_count : (0 <= N.of_nat (List.length t) <= UINT_MAX)%N.
Proof.
  unfold fits in t_fits. apply negb_true_iff, N.ltb_ge in t_fits. lia.
Qed.

Lemma sequence_elements :
  Forall2 (fun x tok => match_ base tok = true /\ to_value E tok base = Ok x)
    t (map trim rs).
Proof.
  apply Forall2_map_r. eapply Forall2_impl; [|exact texts].
  intros x r. apply text_of_token.
Qed.

Lemma sequence_written : to_string (TVector E) t p = Ok s.
Proof.
  cbn [to_string]. unfold p.
  rewrite (list_to_string_concat _ t base 0 UINT_MAX (String c "") rs).
  - cbn [append]. fold s.
    rewrite (tokens_match E base 0 UINT_MAX (String c "") s t (map trim rs)
               (proj1 (proj2 (proj2 (proj2 sequence_joined))))
               sequence_count sequence_elements).
    reflexivity.
  - apply mapM_of_Forall2.
    eapply Forall2_impl; [|exact texts]. intros x y H. exact (proj1 H).
Qed.

Lemma vector_text : text_of F (TVector E) p t s.
Proof.
  destruct sequence_joined as (Hstart & Hfree & Hne & Hsplit & Htrim).
  split; [exact sequence_written|].
  split; [exact (vector_reads E base _ _ _ _ _ _ Hsplit sequence_count
                   sequence_elements)|].
  split; [exact (vector_reads E base _ _ _ _ _ _ Htrim sequence_count
                   sequence_elements)|].
  split; [exact (tokens_match E base _ _ _ _ _ _ Htrim sequence_count
                   sequence_elements)|].
  split; [exact Hstart|]. split; [exact Hfree|].
  intros Hb. apply Hne. intros ->. inversion texts; subst.
  discriminate Hb.
Qed.

Lemma set_text k :
  ordered k (less E) t = true -> text_of F (TSet k E) p t s.
Proof.
  intros Ho.
  destruct sequence_joined as (Hstart & Hfree & Hne & Hsplit & Htrim).
  split; [exact sequence_written|].
  split; [exact (set_reads E base _ _ _ _ _ _ Hsplit sequence_count
                   sequence_elements k Ho)|].
  split; [exact (set_reads E base _ _ _ _ _ _ Htrim sequence_count
                   sequence_elements k Ho)|].
  split; [exact (tokens_match E base _ _ _ _ _ _ Htrim sequence_count
                   sequence_elements)|].
  split; [exact Hstart|]. split; [exact Hfree|].
  intros Hb. apply Hne. intros ->. inversion texts; subst.
  discriminate Hb.
Qed.

End Sequence.

(** *** Complex numbers *)

Lemma complex_text N base c F (t : value_of N * value_of N) r1 r2 :
  is_space c = false -> free_of_all F (String c " ") = true ->
  text_of (c :: F) N base (fst t) r1 -> text_of (c :: F) N base (snd t) r2 ->
  text_of F (TComplex N) (List base 2 2 (String c "")) t
    (concat (String c " ") [r1; r2]).
Proof.
  intros Hsp Hc H1 H2.
  destruct (joined_text c F [r1; r2] Hsp Hc)
    as (Hstart & Hfree & Hne & Hsplit & Htrim).
  { constructor; [exact (text_of_piece _ _ _ _ _ _ H1)|].
    constructor; [exact (text_of_piece _ _ _ _ _ _ H2)|constructor]. }
  { intros r Hr. discriminate Hr. }
  destruct (text_of_token _ _ _ _ _ H1) as [Hm1 Hv1].
  destruct (text_of_token _ _ _ _ _ H2) as [Hm2 Hv2].
  assert (forall s, split_string_list s (String c "") = [trim r1; trim r2] ->
            match_ (List base 2 2 (String c "")) s = true
            /\ to_value (TComplex N) s (List base 2 2 (String c "")) = Ok t)
    as Hread.
  { intros s Hs.
    assert (match_ (List base 2 2 (String c "")) s = true) as Hm.
    { cbn [match_]. rewrite Hs. cbn [forallb List.length].
      rewrite Hm1, Hm2. reflexivity. }
    split; [exact Hm|].
    cbn [to_value]. unfold complex_to_value.
    rewrite (assert_true_bind _ _ _ Hm), Hs.
    cbn [List.length AssertDimension Nat.eqb AssertThrow bind nth].
    rewrite Hv1, Hv2. cbn [bind]. destruct t; reflexivity. }
  destruct (Hread _ Hsplit) as [Hm Hv]. destruct (Hread _ Htrim) as [Hmt Hvt].
  split.
  { cbn [to_string]. unfold complex_to_string.
    rewrite (proj1 H1), (proj1 H2). cbn [bind].
    replace (((r1 ++ String c "") ++ " ") ++ r2)
      with (concat (String c " ") [r1; r2])
      by (cbn [concat]; rewrite !append_assoc; reflexivity).
    rewrite Hm. reflexivity. }
  repeat split; try assumption.
  intros _. apply Hne. discriminate.
Qed.

(** *** Maps and pairs *)

Section Entries.

Variables K V : shape.
Variables kp vp : PatternBase.
Variables c d : ascii.
Variable F : list ascii.

Hypothesis c_not_space : is_space c = false.
Hypothesis d_not_space : is_space d = false.
Hypothesis d_free : free_of_all (c :: F) (String d "") = true.
Hypothesis default_value_pattern : to_pattern V = Ok vp.

Lemma entry_of_facts kv e :
  entry_of (c :: d :: F) K V kp vp d kv e ->
  (k <- to_string K (fst kv) kp ;;
   v <- to_string V (snd kv) vp ;;
   Ok ((k ++ String d "") ++ v)) = Ok e
  /\ (starts_ok e = true /\ free_of_all (c :: F) e = true)
  /\ is_empty e = false
  /\ entry_ok kp vp (String d "") (trim e)
  /\ entry_read K V kp (String d "") (trim e) kv.
Proof.
  intros (rk & rv & -> & Hk & Hv).
  destruct (text_of_token _ _ _ _ _ Hk) as [Hmk Hvk].
  destruct (text_of_token _ _ _ _ _ Hv) as [Hmv Hvv].
  destruct (entry_text_facts c d F rk rv d_not_space d_free)
    as (Hstart & Hne & Hfree & _ & Htrim).
  { apply Hk. } { apply Hk. } { apply Hv. }
  split; [rewrite (proj1 Hk), (proj1 Hv); reflexivity|].
  split; [auto|]. split; [exact Hne|]. split.
  - exists (trim rk), (trim rv). auto.
  - exists (trim rk), (trim rv). split; [exact Htrim|]. split; [exact Hvk|].
    unfold to_value_default. rewrite default_value_pattern. exact Hvv.
Qed.

Section Map.

Variable t : list (value_of K * value_of V).
Variable es : list string.

Hypothesis c_free : free_of_all F (String c " ") = true.
Hypothesis t_fits : fits t = true.
Hypothesis t_sorted : strictly_increasing (less K) (map fst t) = true.
Hypothesis texts : Forall2 (entry_of (c :: d :: F) K V kp vp d) t es.

Let s := concat (String c " ") es.
Let p := Map kp vp 0 UINT_MAX (String c "") (String d "").

Lemma map_joined :
  starts_ok s = true
  /\ free_of_all F s = true
  /\ (es <> [] -> is_empty s = false)
  /\ split_string_list s (String c "") = map trim es
  /\ split_string_list (trim s) (String c "") = map trim es.
Proof.
  apply joined_text; [exact c_not_space|exact c_free| |].
  - exact (Forall2_right _ _ _ _
             (fun x y H => proj1 (proj2 (entry_of_facts x y H))) texts).
  - intros r ->. inversion texts as [|x ? t' ? Hx Ht']; subst.
    exact (proj1 (proj2 (proj2 (entry_of_facts _ _ Hx)))).
Qed.

Lemma map_reads s' :
  split_string_list s' (String c "") = map trim es ->
  match_ p s' = true /\ to_value (TMap K V) s' p = Ok t.
Proof.
  intros Hs'.
  assert (match_ p s' = true) as Hm.
  { apply Map_match_iff. rewrite Hs'. split.
    - rewrite length_map, <- (Forall2_length texts).
      unfold fits in t_fits. apply negb_true_iff, N.ltb_ge in t_fits. lia.
    - apply Forall_map.
      exact (Forall2_right _ _ _ _
               (fun x y H => proj1 (proj2 (proj2 (proj2 (entry_of_facts x y H)))))
               texts). }
  split; [exact Hm|].
  cbn [to_value]. unfold p, map_to_value in *.
  rewrite (assert_true_bind _ _ _ Hm), Hs'.
  rewrite (for_each_entries K V kp (String d "") (map_insert (less K))
             (map trim es) t).
  - apply f_equal, (fold_map_insert (less K) t []). exact t_sorted.
  - apply Forall2_flip, Forall2_map_r.
    eapply Forall2_impl; [|exact texts]. intros x y H.
    exact (proj2 (proj2 (proj2 (proj2 (entry_of_facts x y H))))).
Qed.

Lemma map_text : text_of F (TMap K V) p t s.
Proof.
  destruct map_joined as (Hstart & Hfree & Hne & Hsplit & Htrim).
  destruct (map_reads _ Hsplit) as [Hm Hv].
  destruct (map_reads _ Htrim) as [Hmt Hvt].
  split.
  { cbn [to_string]. unfold p, map_to_string.
    rewrite (mapM_of_Forall2 _ t es).
    - cbn [bind]. rewrite join_concat. cbn [append]. fold s. fold p.
      rewrite Hm. reflexivity.
    - eapply Forall2_impl; [|exact texts].
      intros x y H. exact (proj1 (entry_of_facts x y H)). }
  repeat split; try assumption.
  intros Hb. apply Hne. intros ->. inversion texts; subst. discriminate Hb.
Qed.

End Map.

Lemma pair_text (kv : value_of K * value_of V) e :
  entry_of (c :: d :: F) K V kp vp d kv e ->
  text_of F (TPair K V) (Map kp vp 1 1 (String c "") (String d "")) kv e.
Proof.
  intros He.
  destruct (entry_of_facts kv e He) as (Hwrite & [Hstart Hfree] & Hne & Hok & Hread).
  rewrite free_of_all_cons in Hfree. apply andb_prop in Hfree as [Hc HF].
  assert (split_string_list e (String c "") = [trim e]) as Hsplit.
  { apply (split_string_list_concat c c_not_space [e]).
    - constructor; [exact Hc|constructor].
    - intros _. exact Hne. }
  assert (split_string_list (trim e) (String c "") = [trim e]) as Htrim
      by (rewrite (split_string_list_trim c c_not_space _ Hstart); exact Hsplit).
  assert (forall s', split_string_list s' (String c "") = [trim e] ->
            match_ (Map kp vp 1 1 (String c "") (String d "")) s' = true
            /\ to_value (TPair K V) s' (Map kp vp 1 1 (String c "") (String d ""))
               = Ok kv) as Hreads.
  { intros s' Hs'.
    assert (match_ (Map kp vp 1 1 (String c "") (String d "")) s' = true) as Hm.
    { apply Map_match_iff. rewrite Hs'. split; [cbn; lia|].
      constructor; [exact Hok|constructor]. }
    split; [exact Hm|].
    cbn [to_value]. unfold map_to_value.
    rewrite (assert_true_bind _ _ _ Hm), Hs'.
    rewrite (for_each_entries K V kp (String d "") (unordered_insert (equal K))
               [trim e] [kv]); [reflexivity|].
    constructor; [exact Hread|constructor]. }
  destruct (Hreads _ Hsplit) as [Hm Hv]. destruct (Hreads _ Htrim) as [Hmt Hvt].
  split.
  { cbn [to_string unordered_insert]. unfold map_to_string.
    cbn [mapM]. rewrite Hwrite. cbn [bind join fold_left].
    rewrite Hm. cbn [AssertThrow bind]. rewrite Hm. reflexivity. }
  repeat split; try assumption.
  intros _. exact Hne.
Qed.

End Entries.

(** ** C1: values that survive the text form *)

Lemma narrow_in_range k v :
  (char_min k <=? v) && (v <=? char_max k) = true ->
  narrow k v = v /\ in_int_range v = true.
Proof.
  intros H. apply andb_prop in H as [H1 H2].
  apply Z.leb_le in H1, H2. split.
  - destruct k; cbn [char_min char_max narrow] in *.
    + rewrite Z.mod_small by lia. lia.
    + apply Z.mod_small. lia.
  - unfold in_int_range, INT_MIN, INT_MAX.
    destruct k; cbn [char_min char_max] in *;
      apply andb_true_intro; split; apply Z.leb_le; lia.
Qed.

(** The text of a number, whatever the enclosing separators. *)
Lemma number_text F v :
  Forall (fun ch => allowed 0 0 ch = false) F ->
  trim (Dec.to_string v) = Dec.to_string v
  /\ starts_ok (Dec.to_string v) = true
  /\ free_of_all F (Dec.to_string v) = true
  /\ is_empty (Dec.to_string v) = false.
Proof.
  intros HF. destruct (to_string_token v) as (Hs & He & Ha).
  split; [exact (clean_trim _ Hs He)|].
  split; [exact (starts_clean_ok _ Hs)|].
  split; [exact (all_allowed_free_all 0 0 F _ HF Ha)|].
  exact (starts_clean_nonempty _ Hs).
Qed.

Lemma above_mono lr mr lr' mr' F :
  (lr' <= lr)%nat -> (mr' <= mr)%nat ->
  Forall (fun ch => allowed lr mr ch = false) F ->
  Forall (fun ch => allowed lr' mr' ch = false) F.
Proof.
  intros Hl Hm. apply Forall_impl. intros ch H.
  destruct (allowed lr' mr' ch) eqn:E; [|reflexivity].
  rewrite (allowed_mono lr' mr' lr mr ch Hl Hm E) in H. discriminate.
Qed.

(** The separators of a level against those of the enclosing levels. *)
Lemma list_separator_free lr mr i c F :
  (forall l m, allowed l m c = (i <? l)%nat) -> (i < lr)%nat ->
  Forall (fun ch => allowed lr mr ch = false) F ->
  free_of_all F (String c " ") = true.
Proof.
  intros Hlev Hi HF. apply (all_allowed_free_all lr mr); [exact HF|].
  cbn [Str.all]. rewrite Hlev, allowed_space.
  apply Nat.ltb_lt in Hi. rewrite Hi. reflexivity.
Qed.

Lemma map_separator_free lr mr j d F :
  (forall l m, allowed l m d = (j <? m)%nat) -> (j < mr)%nat ->
  Forall (fun ch => allowed lr mr ch = false) F ->
  free_of_all F (String d "") = true.
Proof.
  intros Hlev Hj HF. apply (all_allowed_free_all lr mr); [exact HF|].
  cbn [Str.all]. rewrite Hlev.
  apply Nat.ltb_lt in Hj. rewrite Hj. reflexivity.
Qed.

Lemma separators_differ i j c d :
  (forall l m, allowed l m c = (i <? l)%nat) ->
  (forall l m, allowed l m d = (j <? m)%nat) ->
  free_of c (String d "") = true.
Proof.
  intros Hc Hd. unfold free_of. cbn [Str.all]. rewrite andb_true_r.
  apply negb_true_iff, Ascii.eqb_neq. intros ->.
  pose proof (Hc 0%nat (S j)) as H1. pose proof (Hd 0%nat (S j)) as H2.
  rewrite H1 in H2.
  assert ((i <? 0)%nat = false) as Hi by (apply Nat.ltb_ge; lia).
  assert ((j <? S j)%nat = true) as Hj by (apply Nat.ltb_lt; lia).
  congruence.
Qed.

(** Every nested value that is [faithful] has a text. *)
Lemma nested_roundtrip T : forall F (v : value_of T) p,
  to_pattern T = Ok p ->
  Forall (fun ch => allowed (list_rank T) (map_rank T) ch = false) F ->
  faithful F T v = true ->
  exists r, text_of F T p v r.
Proof.
  induction T as [| | |E IHE|K IHK V IHV|N IHN|K IHK V IHV|k|k E IHE];
    intros F v p Hp HF Hv.
  - (* bool *)
    injection Hp as <-.
    exists (if v then "true" else "false").
    assert (free_of_all F (if v then "true" else "false") = true) as Hfree
        by (apply (all_allowed_free_all 0 0); [exact HF|destruct v; reflexivity]).
    destruct v; repeat split; exact Hfree.
  - (* int *)
    injection Hp as <-. cbn [faithful] in Hv.
    destruct (number_text F v HF) as (Htrim & Hstart & Hfree & Hne).
    assert (match_ (Integer INT_MIN INT_MAX) (Dec.to_string v) = true) as Hmatch.
    { cbn [match_]. rewrite parse_integer_to_string. exact Hv. }
    assert (to_value TInt (Dec.to_string v) (Integer INT_MIN INT_MAX) = Ok v) as Hread.
    { cbn [to_value]. rewrite Hmatch. cbn [AssertThrow bind].
      rewrite (extract_int_to_string v Hv). reflexivity. }
    exists (Dec.to_string v). unfold text_of. rewrite Htrim.
    repeat split; try assumption; try (intros _; assumption).
    cbn [to_string]. rewrite Hmatch. reflexivity.
  - (* std::string *)
    injection Hp as <-. cbn [faithful] in Hv. apply andb_prop in Hv as [Hu Hfree].
    apply String.eqb_eq in Hu.
    exists v. unfold text_of. rewrite Hu. repeat split; try assumption.
    + exact (unpadded_starts_ok _ Hu).
    + intros H. exact H.
  - (* sequence containers *)
    apply to_pattern_vector_inv in Hp as (base & sep & Hbase & Hsep & ->).
    apply list_separator_char in Hsep as Hc. destruct Hc as (c & -> & Hsp & Hlev).
    cbn [faithful] in Hv. rewrite (separator_chars_at _ _ _ Hsep) in Hv.
    cbn [app] in Hv.
    apply andb_prop in Hv as [Hv Hall]. apply andb_prop in Hv as [Hfits Hlone].
    apply negb_true_iff in Hlone. cbn [list_rank map_rank] in HF.
    destruct (Forall_exists_Forall2 (text_of (c :: F) E base) v) as (rs & Hrs).
    { apply Forall_forall. intros x Hx. apply IHE; [exact Hbase| |].
      - constructor; [rewrite Hlev; apply Nat.ltb_irrefl|].
        apply (above_mono (list_rank E + 1) (map_rank E)); [lia|lia|exact HF].
      - rewrite forallb_forall in Hall. apply Hall, Hx. }
    exists (concat (String c " ") rs).
    apply vector_text; try assumption.
    refine (list_separator_free _ _ _ _ _ Hlev _ HF); lia.
  - (* std::map *)
    apply to_pattern_map_inv in Hp as (kp & vp & sep & kvs & Hkp & Hvp & Hsep & Hkvs & ->).
    apply list_separator_char in Hsep as Hc. destruct Hc as (c & -> & Hsp & Hlev).
    apply map_separator_char in Hkvs as Hd. destruct Hd as (d & -> & Hdsp & Hdlev).
    cbn [faithful] in Hv.
    rewrite (separator_chars_at _ _ _ Hsep), (separator_chars_at _ _ _ Hkvs) in Hv.
    cbn [app] in Hv.
    apply andb_prop in Hv as [Hv Hsorted]. apply andb_prop in Hv as [Hfits Hall].
    cbn [list_rank map_rank] in HF.
    assert (Forall (fun ch => allowed (Nat.max (list_rank K) (list_rank V))
                                (Nat.max (map_rank K) (map_rank V)) ch = false)
              (c :: d :: F)) as HF'.
    { constructor; [rewrite Hlev; apply Nat.ltb_irrefl|].
      constructor; [rewrite Hdlev; apply Nat.ltb_irrefl|].
      revert HF. apply above_mono; lia. }
    destruct (Forall_exists_Forall2 (entry_of (c :: d :: F) K V kp vp d) v)
      as (es & Hes).
    { apply Forall_forall. intros kv Hkv.
      rewrite forallb_forall in Hall. specialize (Hall kv Hkv).
      apply andb_prop in Hall as [Hk Hx].
      destruct (IHK (c :: d :: F) (fst kv) kp Hkp) as (rk & Hrk);
        [revert HF'; apply above_mono; lia|exact Hk|].
      destruct (IHV (c :: d :: F) (snd kv) vp Hvp) as (rv & Hrv);
        [revert HF'; apply above_mono; lia|exact Hx|].
      exists ((rk ++ String d "") ++ rv), rk, rv. auto. }
    exists (concat (String c " ") es).
    apply map_text; try assumption.
    + rewrite free_of_all_cons, (separators_differ _ _ _ _ Hlev Hdlev).
      refine (map_separator_free _ _ _ _ _ Hdlev _ HF); lia.
    + refine (list_separator_free _ _ _ _ _ Hlev _ HF); lia.
  - (* std::complex *)
    apply to_pattern_complex_inv in Hp as (base & sep & Hbase & Hsep & ->).
    apply list_separator_char in Hsep as Hc. destruct Hc as (c & -> & Hsp & Hlev).
    cbn [faithful] in Hv. rewrite (separator_chars_at _ _ _ Hsep) in Hv.
    cbn [app] in Hv. apply andb_prop in Hv as [H1 H2].
    cbn [list_rank map_rank] in HF.
    assert (Forall (fun ch => allowed (list_rank N) (map_rank N) ch = false)
              (c :: F)) as HF'.
    { constructor; [rewrite Hlev; apply Nat.ltb_irrefl|].
      revert HF. apply above_mono; lia. }
    destruct (IHN (c :: F) (fst v) base Hbase HF' H1) as (r1 & Hr1).
    destruct (IHN (c :: F) (snd v) base Hbase HF' H2) as (r2 & Hr2).
    exists (concat (String c " ") [r1; r2]).
    apply complex_text; try assumption.
    refine (list_separator_free _ _ _ _ _ Hlev _ HF); lia.
  - (* std::pair *)
    apply to_pattern_pair_inv in Hp as (kp & vp & sep & kvs & Hkp & Hvp & Hsep & Hkvs & ->).
    apply list_separator_char in Hsep as Hc. destruct Hc as (c & -> & Hsp & Hlev).
    apply map_separator_char in Hkvs as Hd. destruct Hd as (d & -> & Hdsp & Hdlev).
    cbn [faithful] in Hv.
    rewrite (separator_chars_at _ _ _ Hsep), (separator_chars_at _ _ _ Hkvs) in Hv.
    cbn [app] in Hv. apply andb_prop in Hv as [Hk Hx].
    cbn [list_rank map_rank] in HF.
    assert (Forall (fun ch => allowed (Nat.max (list_rank K) (list_rank V))
                                (Nat.max (map_rank K) (map_rank V)) ch = false)
              (c :: d :: F)) as HF'.
    { constructor; [rewrite Hlev; apply Nat.ltb_irrefl|].
      constructor; [rewrite Hdlev; apply Nat.ltb_irrefl|].
      revert HF. apply above_mono; lia. }
    destruct (IHK (c :: d :: F) (fst v) kp Hkp) as (rk & Hrk);
      [revert HF'; apply above_mono; lia|exact Hk|].
    destruct (IHV (c :: d :: F) (snd v) vp Hvp) as (rv & Hrv);
      [revert HF'; apply above_mono; lia|exact Hx|].
    exists ((rk ++ String d "") ++ rv).
    apply (pair_text K V kp vp c d F); try assumption.
    + rewrite free_of_all_cons, (separators_differ _ _ _ _ Hlev Hdlev).
      refine (map_separator_free _ _ _ _ _ Hdlev _ HF); lia.
    + exists rk, rv. auto.
  - (* char, unsigned char *)
    injection Hp as <-. cbn [faithful] in Hv.
    destruct (narrow_in_range k v Hv) as [Hnarrow Hrange].
    destruct (number_text F v HF) as (Htrim & Hstart & Hfree & Hne).
    assert (match_ (Integer (char_min k) (char_max k)) (Dec.to_string v) = true)
      as Hmatch.
    { cbn [match_]. rewrite parse_integer_to_string, Hv.
      destruct (char_min k <=? char_max k); reflexivity. }
    assert (to_value (TChar k) (Dec.to_string v) (Integer (char_min k) (char_max k))
            = Ok v) as Hread.
    { cbn [to_value]. rewrite Hmatch. cbn [AssertThrow bind].
      rewrite (extract_int_to_string v Hrange), Hnarrow. reflexivity. }
    exists (Dec.to_string v). unfold text_of. rewrite Htrim.
    repeat split; try assumption; try (intros _; assumption).
    cbn [to_string]. rewrite Hmatch. reflexivity.
  - (* std::set, std::multiset *)
    apply to_pattern_set_inv in Hp as (base & sep & Hbase & Hsep & ->).
    apply list_separator_char in Hsep as Hc. destruct Hc as (c & -> & Hsp & Hlev).
    cbn [faithful] in Hv. rewrite (separator_chars_at _ _ _ Hsep) in Hv.
    cbn [app] in Hv.
    apply andb_prop in Hv as [Hv Hord]. apply andb_prop in Hv as [Hv Hall].
    apply andb_prop in Hv as [Hfits Hlone].
    apply negb_true_iff in Hlone. cbn [list_rank map_rank] in HF.
    destruct (Forall_exists_Forall2 (text_of (c :: F) E base) v) as (rs & Hrs).
    { apply Forall_forall. intros x Hx. apply IHE; [exact Hbase| |].
      - constructor; [rewrite Hlev; apply Nat.ltb_irrefl|].
        apply (above_mono (list_rank E + 1) (map_rank E)); [lia|lia|exact HF].
      - rewrite forallb_forall in Hall. apply Hall, Hx. }
    exists (concat (String c " ") rs).
    apply set_text; try assumption.
    refine (list_separator_free _ _ _ _ _ Hlev _ HF); lia.
Qed.




(** *** What [representable] leaves out is lost *)

Lemma blank_text T : forall (x : value_of T) p r,
  blank T x = true -> to_string T x p = Ok r -> r = "".
Proof.
  assert (forall E (IH : forall (x : value_of E) p r,
                      blank E x = true -> to_string E x p = Ok r -> r = "")
            (t : list (value_of E)) p r,
            match t with [] => true | [x] => blank E x | _ :: _ :: _ => false end
            = true ->
            list_to_string (to_string E) t p = Ok r -> r = "") as Hlist.
  { intros E IH t p r Hb. unfold list_to_string.
    destruct p; try discriminate.
    destruct t as [|x [|y t]]; [| |discriminate]; cbn [mapM bind].
    - intros H. apply assert_bind_Ok in H as [_ H]. injection H as <-. reflexivity.
    - destruct (to_string E x p) as [rx|] eqn:Hx; [|discriminate].
      cbn [bind join fold_left]. intros H.
      apply assert_bind_Ok in H as [_ H]. injection H as <-.
      exact (IH x p rx Hb Hx). }
  induction T as [| | |E IHE|K IHK V IHV|N IHN|K IHK V IHV|k|k E IHE];
    intros x p r Hb; try discriminate Hb.
  - cbn [blank] in Hb. destruct x; [|discriminate]. cbn [to_string].
    intros H. apply assert_bind_Ok in H as [_ H]. injection H as <-. reflexivity.
  - exact (Hlist E IHE x p r Hb).
  - cbn [blank] in Hb. destruct x; [|discriminate].
    cbn [to_string]. unfold map_to_string. destruct p; try discriminate.
    cbn [mapM bind join]. intros H.
    apply assert_bind_Ok in H as [_ H]. injection H as <-. reflexivity.
  - exact (Hlist E IHE x p r Hb).
Qed.

(** A container whose only element is written as the empty text is never
    read back: the empty text has no elements. *)
Lemma lone_blank_lost E (x : value_of E) p :
  blank E x = true ->
  (s <- to_string (TVector E) [x] p ;; to_value (TVector E) s p) <> Ok [x].
Proof.
  intros Hb. destruct (to_string (TVector E) [x] p) as [s|] eqn:Hs; [|discriminate].
  rewrite (blank_text (TVector E) [x] p s Hb Hs). cbn [bind to_value].
  unfold list_to_value. intros H. apply assert_bind_Ok in H as [_ H].
  destruct p; discriminate H.
Qed.

(** The values of the kinds left out do not come back: a lone empty
    string, a string holding the separator of its list, a string padded
    with white space, a string holding the separator of its pair, a number
    outside [int], a [char] outside its range, and keys or elements not in
    the order of their container. *)
Example left_out_values_are_lost :
  (s <- to_string_default (TVector TString) [""] ;;
   to_value_default (TVector TString) s) = Ok []
  /\ (s <- to_string_default (TVector TString) ["a,b"] ;;
      to_value_default (TVector TString) s) = Ok ["a"; "b"]
  /\ (s <- to_string_default (TVector TString) ["a"; "b "] ;;
      to_value_default (TVector TString) s) = Ok ["a"; "b"]
  /\ to_string_default (TPair TString TInt) ("a,b", 1)
     = Throw (ExcNoMatch "a,b:1" (Map Anything (Integer INT_MIN INT_MAX) 1 1 "," ":"))
  /\ to_string_default TInt 2147483648
     = Throw (ExcNoMatch "2147483648" (Integer INT_MIN INT_MAX))
  /\ to_string_default (TChar unsigned_char) 256
     = Throw (ExcNoMatch "256" (Integer 0 255))
  /\ (s <- to_string_default (TMap TInt TInt) [(2, 0); (1, 0)] ;;
      to_value_default (TMap TInt TInt) s) = Ok [(1, 0); (2, 0)]
  /\ (s <- to_string_default (TSet std_set TInt) [1; 1] ;;
      to_value_default (TSet std_set TInt) s) = Ok [1]
  /\ (s <- to_string_default (TSet std_multiset TInt) [2; 1] ;;
      to_value_default (TSet std_multiset TInt) s) = Ok [1; 2].
Proof. repeat split. Qed.

(** Values that do come back although something nested in them is empty
    or holds a separator of another level. *)
Example kept_values :
  representable (TVector TString) ["a;b"] = true
  /\ representable (TVector (TVector TInt)) [[1]; []] = true
  /\ representable (TVector TString) ["a"; ""] = true
  /\ representable (TPair TInt (TVector TInt)) (1, []) = true
  /\ representable (TMap TInt TString) [(1, "x;y")] = true
  /\ representable (TVector (TVector (TVector TInt))) [[[1]; []]; []] = true
  /\ representable (TSet std_multiset (TChar plain_char)) [-128; 7; 7; 127] = true
  /\ (s <- to_string_default (TVector (TVector (TVector TInt))) [[[1]; []]; []] ;;
      to_value_default (TVector (TVector (TVector TInt))) s)
     = Ok [[[1]; []]; []].
Proof. repeat split. Qed.

(** ** The examples of the specification *)

Example list_arity :
  match_ (List Integer_default 2 2 ",") "1,2" = true
  /\ match_ (List Integer_default 2 2 ",") "1,2,3" = false
  /\ match_ (List Integer_default 2 2 ",") "1" = false.
Proof. repeat split. Qed.

Example multiple_selection :
  match_ (MultipleSelection "ucd|gmv|eps") "" = true
  /\ match_ (MultipleSelection "ucd|gmv|eps") "eps" = true
  /\ match_ (MultipleSelection "ucd|gmv|eps") "gmv, eps" = true
  /\ match_ (MultipleSelection "ucd|gmv|eps") "eps,eps" = true
  /\ match_ (MultipleSelection "ucd|gmv|eps") "eps,xyz" = false.
Proof. repeat split. Qed.

Example bool_is_case_sensitive :
  match_ Bool "true" = true /\ match_ Bool "True" = false.
Proof. repeat split. Qed.

(** The conversions quoted in the header's documentation. *)
Example documented_conversions :
  to_string_default (TVector TInt) [1; 3; 5] = Ok "1, 3, 5"
  /\ to_value_default (TVector TInt) "2,3,4,5" = Ok [2; 3; 4; 5]
  /\ to_value_default (TVector (TVector TInt)) "1,2,3 ; 4,5,6"
     = Ok [[1; 2; 3]; [4; 5; 6]]
  /\ to_value_default (TMap (TVector TInt) (TVector TInt))
       "1,2,3 : 5,6,7  ; 8,9,10 : 11,12,13"
     = Ok [([1; 2; 3], [5; 6; 7]); ([8; 9; 10], [11; 12; 13])].
Proof. repeat split. Qed.

Example split_on_examples :
  split_on "ab" 0 "xabyabz" = ["x"; "y"; "z"]
  /\ split_on "," 0 "a,,b," = ["a"; ""; "b"; ""]
  /\ split_string_list " a ; b;c " ";" = ["a"; "b"; "c"]
  /\ split_string_list "" ";" = [].
Proof. repeat split. Qed.

Example decimal_examples :
  Dec.to_string 0 = "0" /\ Dec.to_string 42 = "42"
  /\ Dec.to_string (-2147483648) = "-2147483648" /\ Dec.to_string 1000 = "1000"
  /\ parse_integer "+17" = Some 17 /\ parse_integer "-" = None
  /\ parse_integer "12a" = None /\ extract_int "  12a" = Some 12
  /\ extract_int "99999999999" = None.
Proof. repeat split. Qed.

(* ================================================================== *)
(** * Further properties of the conversions *)

Import Coverage.

(** ** What [to_string] returns *)

(** X1.  Whatever the type, the value and the pattern, a string returned
    by [to_string] matches the pattern it was given. *)
Theorem to_string_result_matches
  (T : shape) (v : value_of T) (p : PatternBase) (s : string) :
  to_string T v p = Ok s -> match_ p s = true.
Proof. apply to_string_match. Qed.

Lemma to_string_result_matches_witness :
  match_ (List (Integer 0 9) 1 3 ";") "4; 7" = true.
Proof.
  exact (to_string_result_matches (TVector TInt) [4; 7]
           (List (Integer 0 9) 1 3 ";") "4; 7" eq_refl).
Defined.

(** ** Integers: what the pattern checked is what is returned *)

Lemma parse_digits_all s : forall a n,
  parse_digits a s = Some n -> Str.all is_digit s = true.
Proof.
  induction s as [|c s IH]; intros a n; [reflexivity|].
  rewrite parse_digits_cons. cbn [Str.all].
  destruct (is_digit c); [|discriminate].
  intros H. rewrite (IH _ _ H). reflexivity.
Qed.

Lemma parse_unsigned_shape s n :
  parse_unsigned s = Some n -> Str.all is_digit s = true /\ is_empty s = false.
Proof.
  unfold parse_unsigned. destruct (is_empty s) eqn:E; [discriminate|].
  intros H. split; [exact (parse_digits_all _ _ _ H)|reflexivity].
Qed.

(** On a text that is an integer as a whole, the stream extraction reads
    that integer, and fails exactly when it does not fit an [int]. *)
Lemma parse_integer_extract_int s i :
  parse_integer s = Some i ->
  extract_int s = if in_int_range i then Some i else None.
Proof.
  destruct s as [|c s']; [discriminate|].
  unfold parse_integer.
  destruct (Ascii.eqb c "-") eqn:Em; [|destruct (Ascii.eqb c "+") eqn:Ep].
  - apply Ascii.eqb_eq in Em. subst c.
    destruct (parse_unsigned s') as [n|] eqn:Hp; [|discriminate].
    intros H. injection H as <-.
    destruct (parse_unsigned_shape _ _ Hp) as [Hall _].
    unfold extract_int. cbn [ltrim].
    change (is_space "-") with false. cbv iota.
    change (Ascii.eqb "-" "-") with true. cbv iota beta.
    rewrite (digit_prefix_all _ Hall), Hp. reflexivity.
  - apply Ascii.eqb_eq in Ep. subst c.
    intros Hp.
    destruct (parse_unsigned_shape _ _ Hp) as [Hall _].
    unfold extract_int. cbn [ltrim].
    change (is_space "+") with false. cbv iota.
    change (Ascii.eqb "+" "-") with false.
    change (Ascii.eqb "+" "+") with true. cbv iota beta.
    rewrite (digit_prefix_all _ Hall), Hp. reflexivity.
  - intros Hp.
    destruct (parse_unsigned_shape _ _ Hp) as [Hall _].
    pose proof Hall as Hall'. cbn [Str.all] in Hall.
    apply andb_prop in Hall as [Hc _].
    unfold extract_int. cbn [ltrim].
    rewrite (digit_not_space _ Hc), Em, Ep.
    rewrite (digit_prefix_all _ Hall'), Hp. reflexivity.
Qed.

(** X2.  When [to_value] for [int] returns a value under an [Integer]
    pattern, the value is the integer the whole text denotes, it fits an
    [int], and it lies inside the bounds of the pattern when they are
    ordered. *)
Theorem int_to_value_respects_pattern (lower upper : Z) (s : string) (v : Z) :
  to_value TInt s (Integer lower upper) = Ok v ->
  parse_integer s = Some v
  /\ in_int_range v = true
  /\ (lower <= upper -> lower <= v <= upper).
Proof.
  cbn [to_value]. intros H. apply assert_bind_Ok in H as [Hm H].
  cbn [match_] in Hm.
  destruct (parse_integer s) as [i|] eqn:Hp; [|discriminate].
  rewrite (parse_integer_extract_int _ _ Hp) in H.
  destruct (in_int_range i) eqn:Hr; [|discriminate].
  injection H as <-. split; [reflexivity|]. split; [exact Hr|].
  intros Hle. destruct (Z.leb_spec lower upper); [|lia].
  apply andb_prop in Hm as [H1 H2]. lia.
Qed.

Lemma int_to_value_respects_pattern_witness :
  parse_integer "+42" = Some 42
  /\ in_int_range 42 = true
  /\ (0 <= 100 -> 0 <= 42 <= 100).
Proof.
  exact (int_to_value_respects_pattern 0 100 "+42" 42 eq_refl).
Defined.

(** X3.  A text that the pattern accepts and that denotes an integer too
    large or too small for an [int] is not wrapped around: [to_value]
    ends with the "Failed to convert" message. *)
Theorem int_to_value_overflow (p : PatternBase) (s : string) (i : Z) :
  match_ p s = true -> parse_integer s = Some i -> in_int_range i = false ->
  to_value TInt s p = Throw (failed_to_convert s "int").
Proof.
  intros Hm Hp Hr. cbn [to_value].
  rewrite (assert_true_bind _ _ _ Hm), (parse_integer_extract_int _ _ Hp), Hr.
  reflexivity.
Qed.

Lemma int_to_value_overflow_witness :
  to_value TInt "2147483648" (Integer 5 2)
  = Throw (failed_to_convert "2147483648" "int").
Proof.
  exact (int_to_value_overflow (Integer 5 2) "2147483648" 2147483648
           eq_refl eq_refl eq_refl).
Defined.

(** ** Under the default pattern, matching decides conversion *)

Lemma for_each_total {A B : Type} (body : B -> A -> result B) (l : list A) :
  (forall x, In x l -> forall acc, exists acc', body acc x = Ok acc') ->
  forall acc, exists r, for_each body l acc = Ok r.
Proof.
  induction l as [|x l IH]; intros Hbody acc; cbn [for_each]; [eauto|].
  destruct (Hbody x (or_introl eq_refl) acc) as (acc' & ->). cbn [bind].
  apply IH. intros y Hy. apply Hbody. right. exact Hy.
Qed.

Lemma count_two n : count_in_range n 2 2 = true -> n = 2%nat.
Proof. intros H. apply count_in_range_iff in H. lia. Qed.

Lemma count_one n : count_in_range n 1 1 = true -> n = 1%nat.
Proof. intros H. apply count_in_range_iff in H. lia. Qed.

Lemma entry_converts K V kp vp kvs e
  (insert : value_of K * value_of V -> list (value_of K * value_of V)
            -> list (value_of K * value_of V)) acc :
  (forall s, match_ kp s = true -> exists v, to_value K s kp = Ok v) ->
  (forall s, match_ vp s = true -> exists v, to_value V s vp = Ok v) ->
  to_pattern V = Ok vp ->
  entry_ok kp vp kvs e ->
  exists k x,
    (AssertDimension (List.length (split_string_list e kvs)) 2 ;;;
     k <- to_value K (nth 0 (split_string_list e kvs) "") kp ;;
     x <- (p <- to_pattern V ;; to_value V (nth 1 (split_string_list e kvs) "") p) ;;
     Ok (insert (k, x) acc))
    = Ok (insert (k, x) acc).
Proof.
  intros HK HV Hvp (key & value & Hsplit & Hmk & Hmv).
  destruct (HK key Hmk) as (k & Hk). destruct (HV value Hmv) as (x & Hx).
  exists k, x. rewrite Hsplit, Hvp.
  cbn [List.length AssertDimension Nat.eqb AssertThrow bind nth].
  rewrite Hk, Hx. reflexivity.
Qed.

Lemma matched_text_converts T : forall p s,
  to_pattern T = Ok p -> match_ p s = true -> exists v, to_value T s p = Ok v.
Proof.
  induction T as [| | |E IHE|K IHK V IHV|N IHN|K IHK V IHV|k|k E IHE];
    intros p s Hp Hm.
  - cbn [to_value]. rewrite Hm. cbn. eauto.
  - injection Hp as <-. cbn [to_value]. rewrite Hm. cbn [AssertThrow bind].
    cbn [match_] in Hm.
    destruct (parse_integer s) as [i|] eqn:Hi; [|discriminate].
    rewrite (parse_integer_extract_int _ _ Hi).
    change (INT_MIN <=? INT_MAX) with true in Hm. cbv iota in Hm.
    unfold in_int_range. rewrite Hm. eauto.
  - cbn [to_value]. rewrite Hm. cbn. eauto.
  - apply to_pattern_vector_inv in Hp as (base & sep & Hbase & _ & ->).
    cbn [to_value]. unfold list_to_value. rewrite (assert_true_bind _ _ _ Hm).
    cbn [match_] in Hm. apply andb_prop in Hm as [_ Hall].
    rewrite forallb_forall in Hall.
    apply for_each_total. intros tok Htok acc.
    destruct (IHE base tok Hbase (Hall tok Htok)) as (x & ->).
    cbn [bind]. eauto.
  - apply to_pattern_map_inv in Hp as (kp & vp & sep & kvs & Hkp & Hvp & _ & _ & ->).
    cbn [to_value]. unfold map_to_value. rewrite (assert_true_bind _ _ _ Hm).
    apply Map_match_iff in Hm as [_ Hall]. rewrite Forall_forall in Hall.
    apply for_each_total. intros e He acc.
    destruct (entry_converts K V kp vp kvs e (map_insert (less K)) acc
                (fun s => IHK kp s Hkp) (fun s => IHV vp s Hvp) Hvp (Hall e He))
      as (k & x & ->).
    eauto.
  - apply to_pattern_complex_inv in Hp as (base & sep & Hbase & _ & ->).
    cbn [to_value]. unfold complex_to_value. rewrite (assert_true_bind _ _ _ Hm).
    cbn [match_] in Hm. apply andb_prop in Hm as [Hcount Hall].
    apply count_two in Hcount.
    destruct (split_string_list s sep) as [|a [|b [|c l]]]; try discriminate.
    cbn [forallb] in Hall. apply andb_prop in Hall as [Ha Hb].
    apply andb_prop in Hb as [Hb _].
    cbn [List.length AssertDimension Nat.eqb AssertThrow bind nth].
    destruct (IHN base a Hbase Ha) as (re & ->).
    destruct (IHN base b Hbase Hb) as (im & ->).
    cbn [bind]. eauto.
  - apply to_pattern_pair_inv in Hp as (kp & vp & sep & kvs & Hkp & Hvp & _ & _ & ->).
    cbn [to_value]. unfold map_to_value. rewrite (assert_true_bind _ _ _ Hm).
    pose proof Hm as Hm'. apply Map_match_iff in Hm' as [_ Hall].
    cbn [match_] in Hm. apply andb_prop in Hm as [Hcount _].
    apply count_one in Hcount.
    destruct (split_string_list s sep) as [|e [|e2 l]]; try discriminate.
    inversion Hall as [|? ? He _]; subst.
    cbn [for_each].
    destruct (entry_converts K V kp vp kvs e (unordered_insert (equal K)) []
                (fun s => IHK kp s Hkp) (fun s => IHV vp s Hvp) Hvp He)
      as (k & x & ->).
    cbn. eauto.
  - injection Hp as <-. cbn [to_value]. rewrite Hm. cbn [AssertThrow bind].
    cbn [match_] in Hm.
    destruct (parse_integer s) as [i|] eqn:Hi; [|discriminate].
    rewrite (parse_integer_extract_int _ _ Hi).
    assert (in_int_range i = true) as ->; [|eauto].
    unfold in_int_range, INT_MIN, INT_MAX.
    destruct k; cbn in Hm; apply andb_prop in Hm as [H1 H2];
      apply andb_true_intro; split; apply Z.leb_le; lia.
  - apply to_pattern_set_inv in Hp as (base & sep & Hbase & _ & ->).
    cbn [to_value]. unfold set_to_value. rewrite (assert_true_bind _ _ _ Hm).
    cbn [match_] in Hm. apply andb_prop in Hm as [_ Hall].
    rewrite forallb_forall in Hall.
    apply for_each_total. intros tok Htok acc.
    destruct (IHE base tok Hbase (Hall tok Htok)) as (x & ->).
    cbn [bind]. eauto.
Qed.

(** X4.  With the default pattern of a type, [to_value] returns a value
    exactly for the texts the pattern matches: once the first check has
    passed, no later step of the conversion fails. *)
Theorem default_pattern_decides_to_value (T : shape) (p : PatternBase) (s : string) :
  to_pattern T = Ok p ->
  (match_ p s = true <-> exists v, to_value T s p = Ok v).
Proof.
  intros Hp. split.
  - apply matched_text_converts, Hp.
  - intros (v & Hv). destruct (match_ p s) eqn:Hm; [reflexivity|].
    rewrite (to_value_no_match T s p Hm) in Hv. discriminate.
Qed.

Lemma default_pattern_decides_to_value_witness :
  match_ (Map (List (Integer INT_MIN INT_MAX) 0 UINT_MAX ",") Bool
            0 UINT_MAX ";" ":") "1, 2: true; 3: false" = true
  <-> exists v, to_value (TMap (TVector TInt) TBool) "1, 2: true; 3: false"
                  (Map (List (Integer INT_MIN INT_MAX) 0 UINT_MAX ",") Bool
                     0 UINT_MAX ";" ":") = Ok v.
Proof.
  exact (default_pattern_decides_to_value (TMap (TVector TInt) TBool) _
           "1, 2: true; 3: false" eq_refl).
Defined.

(** ** Sequence containers are read token by token *)

Lemma for_each_snoc_inv {A : Type} (f : string -> result A) toks : forall acc r,
  for_each (fun t str => x <- f str ;; Ok (t ++ [x])%list) toks acc = Ok r ->
  exists xs, r = (acc ++ xs)%list /\ Forall2 (fun tok x => f tok = Ok x) toks xs.
Proof.
  induction toks as [|tok toks IH]; intros acc r; cbn [for_each].
  - intros H. injection H as <-. exists []. rewrite app_nil_r.
    split; [reflexivity|constructor].
  - intros H. apply bind_Ok_inv in H as (acc1 & H1 & H).
    apply bind_Ok_inv in H1 as (x & Hx & H1). injection H1 as <-.
    destruct (IH _ _ H) as (xs & -> & Hxs).
    exists (x :: xs). rewrite <- app_assoc. split; [reflexivity|].
    constructor; assumption.
Qed.

(** X5.  Reading a sequence container with a [List] pattern returns [v]
    exactly when the text matches and [v] holds, in order, the values of
    the trimmed tokens of the text, each read with the base pattern; the
    number of elements then lies within the bounds of the pattern. *)
Theorem list_to_value_elementwise
  (E : shape) (s : string) (base : PatternBase) (mn mx : N) (sep : string)
  (v : list (value_of E)) :
  (to_value (TVector E) s (List base mn mx sep) = Ok v
   <-> match_ (List base mn mx sep) s = true
       /\ Forall2 (fun tok x => to_value E tok base = Ok x)
            (split_string_list s sep) v)
  /\ (to_value (TVector E) s (List base mn mx sep) = Ok v ->
      (mn <= N.of_nat (List.length v) <= mx)%N).
Proof.
  assert (to_value (TVector E) s (List base mn mx sep) = Ok v ->
          match_ (List base mn mx sep) s = true
          /\ Forall2 (fun tok x => to_value E tok base = Ok x)
               (split_string_list s sep) v) as Hfwd.
  { cbn [to_value]. unfold list_to_value. intros H.
    apply assert_bind_Ok in H as [Hm H]. split; [exact Hm|].
    apply for_each_snoc_inv in H as (xs & -> & Hxs). exact Hxs. }
  split; [split; [exact Hfwd|]|].
  - intros [Hm Hall]. cbn [to_value]. unfold list_to_value.
    rewrite (assert_true_bind _ _ _ Hm).
    rewrite (for_each_steps _ (fun t x => (t ++ [x])%list) (split_string_list s sep) v).
    + rewrite fold_left_snoc. reflexivity.
    + clear -Hall. induction Hall as [|tok x toks xs Hx _ IH]; constructor.
      * intros acc. rewrite Hx. reflexivity.
      * exact IH.
  - intros H. destruct (Hfwd H) as [Hm Hall].
    cbn [match_] in Hm. apply andb_prop in Hm as [Hc _].
    apply count_in_range_iff in Hc.
    rewrite <- (Forall2_length Hall). exact Hc.
Qed.

Lemma list_to_value_elementwise_witness :
  (2 <= N.of_nat (List.length [7; 8; 9]) <= 5)%N.
Proof.
  exact (proj2 (list_to_value_elementwise TInt " 7 ,8, 9" (Integer 0 9) 2 5 ","
                  [7; 8; 9]) eq_refl).
Defined.

(** ** A pair is a map with one entry *)

(** X6.  Writing a pair is writing the map that holds just this pair (the
    second check of the result in the pair conversion never fails on its
    own), and with a [Map] pattern that allows at most one entry, reading
    a pair is reading the map and taking its first entry. *)
Theorem pair_is_single_entry_map (K V : shape) :
  (forall (t : value_of K * value_of V) p,
      to_string (TPair K V) t p = to_string (TMap K V) [t] p)
  /\ (forall s kp vp mn sep kvs,
      to_value (TPair K V) s (Map kp vp mn 1 sep kvs)
      = (m <- to_value (TMap K V) s (Map kp vp mn 1 sep kvs) ;; first_entry m)).
Proof.
  split.
  - intros t p.
    change (to_string (TPair K V) t p)
      with (s <- to_string (TMap K V) [t] p ;;
            AssertThrow (match_ p s) (ExcNoMatch s p) ;;; Ok s).
    destruct (to_string (TMap K V) [t] p) as [s|e] eqn:Hs; [|reflexivity].
    cbn [bind].
    rewrite (to_string_match (TMap K V) [t] p s Hs). reflexivity.
  - intros s kp vp mn sep kvs. cbn [to_value]. unfold map_to_value.
    destruct (match_ (Map kp vp mn 1 sep kvs) s) eqn:Hm; [|reflexivity].
    cbn [AssertThrow bind].
    cbn [match_] in Hm. apply andb_prop in Hm as [Hc _].
    apply count_in_range_iff in Hc.
    destruct (split_string_list s sep) as [|e [|e2 l]].
    + reflexivity.
    + cbn [for_each].
      destruct (AssertDimension (List.length (split_string_list e kvs)) 2);
        [|reflexivity].
      cbn [bind].
      destruct (to_value K (nth 0 (split_string_list e kvs) "") kp);
        [|reflexivity].
      cbn [bind].
      destruct (to_pattern V); [|reflexivity]. cbn [bind].
      destruct (to_value V (nth 1 (split_string_list e kvs) "") _); reflexivity.
    + cbn [List.length] in Hc. lia.
Qed.

(** ** A complex number is a list of two elements *)


(** ** A pattern of the wrong class *)

(** X8.  A container cannot be converted with a pattern of another
    class.  [to_string] refuses at once with the message asking for a
    [List] (or [Map]) pattern; [to_value] first checks the text against
    the pattern and throws [ExcNoMatch] when it does not match, and the
    same message otherwise.  No value is returned either way. *)
Theorem wrong_pattern_class (E K V : shape) (p : PatternBase) (s : string) :
  (is_List p = false ->
   (forall t, to_string (TVector E) t p
              = Throw (ExcMessage
                  "I need a List pattern to convert a string to a List type."))
   /\ to_value (TVector E) s p
      = Throw (if match_ p s
               then ExcMessage
                      "I need a List pattern to convert a string to a List type."
               else ExcNoMatch s p))
  /\ (is_Map p = false ->
      (forall t, to_string (TMap K V) t p
                 = Throw (ExcMessage
           "I need a Map pattern to convert a string to a Map compatbile type."))
      /\ (forall t, to_string (TPair K V) t p
                    = Throw (ExcMessage
           "I need a Map pattern to convert a string to a Map compatbile type."))
      /\ to_value (TMap K V) s p
         = Throw (if match_ p s
                  then ExcMessage
           "I need a Map pattern to convert a string to a Map compatible type."
                  else ExcNoMatch s p)
      /\ to_value (TPair K V) s p
         = Throw (if match_ p s
                  then ExcMessage
           "I need a Map pattern to convert a string to a Map compatible type."
                  else ExcNoMatch s p)).
Proof.
  split.
  - intros Hp. split.
    + intros t. destruct p; try discriminate; reflexivity.
    + cbn [to_value]. unfold list_to_value.
      destruct (match_ p s); destruct p; try discriminate; reflexivity.
  - intros Hp. repeat split.
    + intros t. destruct p; try discriminate; reflexivity.
    + intros t. destruct p; try discriminate; reflexivity.
    + cbn [to_value]. unfold map_to_value.
      destruct (match_ p s); destruct p; try discriminate; reflexivity.
    + cbn [to_value]. unfold map_to_value.
      destruct (match_ p s); destruct p; try discriminate; reflexivity.
Qed.

Lemma wrong_pattern_class_witness :
  to_value (TVector TInt) "1, 2" Anything
  = Throw (ExcMessage "I need a List pattern to convert a string to a List type.")
  /\ to_value (TMap TInt TInt) "1: 2" (List (Integer 0 9) 0 5 ",")
     = Throw (ExcNoMatch "1: 2" (List (Integer 0 9) 0 5 ",")).
Proof.
  split.
  - exact (proj2 (proj1 (wrong_pattern_class TInt TInt TInt Anything "1, 2") eq_refl)).
  - exact (proj1 (proj2 (proj2 (proj2 (wrong_pattern_class TInt TInt TInt
                                         (List (Integer 0 9) 0 5 ",") "1: 2")
                                  eq_refl)))).
Defined.

(** ** How deep a type may nest *)

Lemma at_index_in_range table i sep :
  at_index table i = Ok sep -> (i < List.length table)%nat.
Proof.
  unfold at_index. destruct (nth_error table i) eqn:E; [|discriminate].
  intros _. apply nth_error_Some. congruence.
Qed.

Lemma at_index_total table i :
  (i < List.length table)%nat -> exists sep, at_index table i = Ok sep.
Proof.
  intros H. apply nth_error_Some in H. unfold at_index.
  destruct (nth_error table i); [eauto|contradiction].
Qed.

Lemma default_pattern_needs_ranks T : forall p,
  to_pattern T = Ok p -> (list_rank T <= 4 /\ map_rank T <= 4)%nat.
Proof.
  induction T as [| | |E IHE|K IHK V IHV|N IHN|K IHK V IHV|k|k E IHE]; intros p Hp;
    cbn [list_rank map_rank]; try (split; lia).
  - apply to_pattern_vector_inv in Hp as (base & sep & Hbase & Hsep & _).
    apply at_index_in_range in Hsep. cbn in Hsep.
    destruct (IHE _ Hbase). lia.
  - apply to_pattern_map_inv in Hp as (kp & vp & sep & kvs & _ & _ & Hsep & Hkvs & _).
    apply at_index_in_range in Hsep. apply at_index_in_range in Hkvs.
    cbn in Hsep, Hkvs. lia.
  - apply to_pattern_complex_inv in Hp as (base & sep & Hbase & Hsep & _).
    apply at_index_in_range in Hsep. cbn in Hsep.
    destruct (IHN _ Hbase). lia.
  - apply to_pattern_pair_inv in Hp as (kp & vp & sep & kvs & _ & _ & Hsep & Hkvs & _).
    apply at_index_in_range in Hsep. apply at_index_in_range in Hkvs.
    cbn in Hsep, Hkvs. lia.
  - apply to_pattern_set_inv in Hp as (base & sep & Hbase & Hsep & _).
    apply at_index_in_range in Hsep. cbn in Hsep.
    destruct (IHE _ Hbase). lia.
Qed.

Lemma ranks_give_default_pattern T :
  has_pair T = false -> (list_rank T <= 4)%nat -> (map_rank T <= 4)%nat ->
  exists p, to_pattern T = Ok p.
Proof.
  induction T as [| | |E IHE|K IHK V IHV|N IHN|K IHK V IHV|k|k E IHE];
    cbn [has_pair list_rank map_rank to_pattern]; intros Hpair Hl Hm;
    try (eexists; reflexivity).
  - destruct (IHE Hpair ltac:(lia) Hm) as (base & ->).
    rewrite Nat.add_sub.
    destruct (at_index_total default_list_separator (list_rank E)) as (sep & ->);
      [cbn; lia|].
    cbn [bind]. eauto.
  - apply orb_false_elim in Hpair as [HpK HpV].
    destruct (IHK HpK ltac:(lia) ltac:(lia)) as (kp & ->).
    destruct (IHV HpV ltac:(lia) ltac:(lia)) as (vp & ->).
    rewrite !Nat.add_sub.
    destruct (at_index_total default_list_separator
                (Nat.max (list_rank K) (list_rank V))) as (sep & ->); [cbn; lia|].
    destruct (at_index_total default_map_separator
                (Nat.max (map_rank K) (map_rank V))) as (kvs & ->); [cbn; lia|].
    cbn [bind]. eauto.
  - destruct (IHN Hpair ltac:(lia) Hm) as (base & ->).
    rewrite Nat.add_sub.
    destruct (at_index_total default_list_separator (list_rank N)) as (sep & ->);
      [cbn; lia|].
    cbn [bind]. eauto.
  - discriminate.
  - destruct (IHE Hpair ltac:(lia) Hm) as (base & ->).
    rewrite Nat.add_sub.
    destruct (at_index_total default_list_separator (list_rank E)) as (sep & ->);
      [cbn; lia|].
    cbn [bind]. eauto.
Qed.

(** X9.  A type has a default pattern only if its list rank and its map
    rank are at most four, the length of the separator tables; for types
    without [std::pair] this is also sufficient.  A pair takes its list
    separator at index [list_rank] instead of [list_rank - 1], so a pair
    has a default pattern only up to list rank three. *)
Theorem default_pattern_rank_cap :
  (forall T p, to_pattern T = Ok p -> (list_rank T <= 4 /\ map_rank T <= 4)%nat)
  /\ (forall T, has_pair T = false ->
                (list_rank T <= 4)%nat -> (map_rank T <= 4)%nat ->
                exists p, to_pattern T = Ok p)
  /\ (forall K V p, to_pattern (TPair K V) = Ok p ->
                    (list_rank (TPair K V) <= 3)%nat).
Proof.
  split; [exact default_pattern_needs_ranks|].
  split; [exact ranks_give_default_pattern|].
  intros K V p Hp.
  apply to_pattern_pair_inv in Hp as (kp & vp & sep & kvs & _ & _ & Hsep & _ & _).
  apply at_index_in_range in Hsep. cbn in Hsep. cbn [list_rank]. lia.
Qed.

Lemma default_pattern_rank_cap_witness :
  (list_rank (TVector (TVector (TVector (TVector TInt)))) <= 4
   /\ map_rank (TVector (TVector (TVector (TVector TInt)))) <= 4)%nat
  /\ (exists p, to_pattern (TMap (TVector TInt) (TVector (TVector TString))) = Ok p)
  /\ (list_rank (TPair (TVector TInt) TBool) <= 3)%nat.
Proof.
  split; [|split].
  - exact (proj1 default_pattern_rank_cap
             (TVector (TVector (TVector (TVector TInt)))) _ eq_refl).
  - apply (proj1 (proj2 default_pattern_rank_cap)); [reflexivity|cbn; lia|cbn; lia].
  - exact (proj2 (proj2 default_pattern_rank_cap) (TVector TInt) TBool _ eq_refl).
Defined.

(** Beyond the tables: five nested containers, and a pair around a list
    of rank four, have no default pattern although the list itself has
    one. *)
Example beyond_the_tables :
  to_pattern (TVector (TVector (TVector (TVector (TVector TInt)))))
  = Throw (OutOfRange 4 4)
  /\ (exists p, to_pattern (TVector (TVector (TVector (TVector TInt)))) = Ok p)
  /\ to_pattern (TPair (TVector (TVector (TVector (TVector TInt)))) TInt)
     = Throw (OutOfRange 4 4).
Proof. split; [reflexivity|]. split; [eexists; reflexivity|reflexivity]. Qed.

(** ** The empty text *)

(** X10.  Under the default pattern the empty map is written as the empty
    text and the empty text is read as the empty map, whereas the empty
    text is never a complex number or a pair: [to_value] refuses it with
    [ExcNoMatch]. *)
Theorem empty_text_conversions :
  (forall K V p, to_pattern (TMap K V) = Ok p ->
                 to_string (TMap K V) [] p = Ok ""
                 /\ to_value (TMap K V) "" p = Ok [])
  /\ (forall N p, to_pattern (TComplex N) = Ok p ->
                  to_value (TComplex N) "" p = Throw (ExcNoMatch "" p))
  /\ (forall K V p, to_pattern (TPair K V) = Ok p ->
                    to_value (TPair K V) "" p = Throw (ExcNoMatch "" p)).
Proof.
  split; [|split].
  - intros K V p Hp.
    apply to_pattern_map_inv in Hp as (kp & vp & sep & kvs & _ & _ & _ & _ & ->).
    split; reflexivity.
  - intros N p Hp.
    apply to_pattern_complex_inv in Hp as (base & sep & _ & _ & ->). reflexivity.
  - intros K V p Hp.
    apply to_pattern_pair_inv in Hp as (kp & vp & sep & kvs & _ & _ & _ & _ & ->).
    reflexivity.
Qed.

Lemma empty_text_conversions_witness :
  (to_string (TMap TInt TBool) [] (Map (Integer INT_MIN INT_MAX) Bool 0 UINT_MAX "," ":")
   = Ok ""
   /\ to_value (TMap TInt TBool) "" (Map (Integer INT_MIN INT_MAX) Bool 0 UINT_MAX "," ":")
      = Ok [])
  /\ to_value (TPair TInt TBool) "" (Map (Integer INT_MIN INT_MAX) Bool 1 1 "," ":")
     = Throw (ExcNoMatch "" (Map (Integer INT_MIN INT_MAX) Bool 1 1 "," ":")).
Proof.
  split.
  - exact (proj1 empty_text_conversions TInt TBool _ eq_refl).
  - exact (proj2 (proj2 empty_text_conversions) TInt TBool _ eq_refl).
Defined.

(** ** From text to value and back, for elementary types *)

Lemma Bool_match_inv s :
  match_ Bool s = true -> s = "true" \/ s = "false".
Proof.
  cbn [match_]. unfold is_option.
  change (split_on "|" 0 "true|false") with ["true"; "false"].
  cbn [existsb]. rewrite orb_false_r. intros H.
  apply orb_prop in H as [H|H]; apply String.eqb_eq in H; auto.
Qed.

(** X11.  Reading an elementary value and writing it again: for [bool]
    under the [Bool] pattern and for [std::string] under any pattern the
    text comes back unchanged; for [int] under an [Integer] pattern the
    plain decimal text of the number comes back, and it reads as the same
    number. *)
Theorem elementary_text_recovered :
  (forall s b, to_value TBool s Bool = Ok b -> to_string TBool b Bool = Ok s)
  /\ (forall s p v, to_value TString s p = Ok v ->
                    v = s /\ to_string TString v p = Ok s)
  /\ (forall s lower upper v,
        to_value TInt s (Integer lower upper) = Ok v ->
        to_string TInt v (Integer lower upper) = Ok (Dec.to_string v)
        /\ to_value TInt (Dec.to_string v) (Integer lower upper) = Ok v).
Proof.
  split; [|split].
  - intros s b. cbn [to_value]. intros H.
    apply assert_bind_Ok in H as [Hm H]. injection H as <-.
    destruct (Bool_match_inv s Hm) as [-> | ->]; reflexivity.
  - intros s p v. cbn [to_value to_string]. intros H.
    apply assert_bind_Ok in H as [Hm H]. injection H as <-.
    split; [reflexivity|]. rewrite Hm. reflexivity.
  - intros s lower upper v H.
    assert (match_ (Integer lower upper) (Dec.to_string v) = true
            /\ in_int_range v = true) as [Hm Hr].
    { cbn [to_value] in H. apply assert_bind_Ok in H as [Hm H].
      cbn [match_] in Hm |- *.
      destruct (parse_integer s) as [i|] eqn:Hp; [|discriminate].
      rewrite (parse_integer_extract_int _ _ Hp) in H.
      destruct (in_int_range i) eqn:Hr; [|discriminate].
      injection H as <-. rewrite parse_integer_to_string. auto. }
    cbn [to_string to_value]. rewrite Hm. cbn [AssertThrow bind].
    rewrite (extract_int_to_string _ Hr). auto.
Qed.

Lemma elementary_text_recovered_witness :
  to_string TBool false Bool = Ok "false"
  /\ to_string TInt 7 (Integer 0 9) = Ok "7"
  /\ to_value TInt "7" (Integer 0 9) = Ok 7.
Proof.
  split.
  - exact (proj1 elementary_text_recovered "false" false eq_refl).
  - exact (proj2 (proj2 elementary_text_recovered) "+007" 0 9 7 eq_refl).
Defined.

(** ** Floating point *)

(** The text of a [double] keeps six decimals, so that numbers that
    differ further down are written alike: [0.1] and the next [double]
    above it both give ["0.100000"], and [2^-30] is written like zero.
    Whatever the pattern, [to_string] cannot tell them apart, and no
    reading of the text returns both. *)
Theorem double_text_is_shared :
  Floating.is_double (Floating.Finite false 7205759403792794 (-56)) = true
  /\ Floating.is_double (Floating.Finite false 7205759403792795 (-56)) = true
  /\ Floating.same_value (Floating.Finite false 7205759403792794 (-56))
       (Floating.Finite false 7205759403792795 (-56)) = false
  /\ Floating.to_string (Floating.Finite false 7205759403792794 (-56)) = "0.100000"
  /\ Floating.to_string (Floating.Finite false 7205759403792795 (-56)) = "0.100000"
  /\ Floating.to_string (Floating.Finite false 1 (-30)) = "0.000000"
  /\ Floating.to_string (Floating.Finite false 0 0) = "0.000000"
  /\ Floating.to_string (Floating.Finite true 5 (-1)) = "-2.500000"
  /\ Floating.to_string (Floating.Finite false 3 (-2)) = "0.750000"
  /\ Floating.to_string (Floating.Finite false 1 70) = "1180591620717411303424.000000"
  /\ (forall p,
        Floating.Convert_to_string (Floating.Finite false 7205759403792794 (-56)) p
        = Floating.Convert_to_string (Floating.Finite false 7205759403792795 (-56)) p).
Proof.
  repeat split; try (vm_compute; reflexivity).
Qed.
